(** * Exchange-rate page: the data-shaping pipeline of [pages/index.tsx]

    A shallow embedding of [getServerSideProps] (fetch, per-item formatting,
    reversal, the try/catch), of the domain computation and the language
    toggle of [CurrencyExchangeGraph], together with the parts of the
    JavaScript runtime they call: Number (IEEE binary64, on the
    specification of floating-point numbers of the standard library),
    [parseFloat], [Math.min]/[Math.max]/[Math.floor]/[Math.ceil], [Date] and
    the string helpers.

    The repository holds two revisions of the page: the bilingual one
    ([Index]) and an earlier single-language one ([Single]).  They share
    [getServerSideProps] and the domain computation up to the type of
    [formattedTime]; the shared code is in [Page], written once over that
    type. *)

From Stdlib Require Import ZArith List String Ascii Bool Lia.
From Stdlib Require Import Floats.SpecFloat.
Import ListNotations.

Open Scope string_scope.
Open Scope Z_scope.

(* ================================================================== *)
(** ** Strings: the runtime helpers the page uses *)

Module Str.

(** Code unit of a character.  Strings are kept as UTF-8 byte sequences;
    every string the page measures or pads is ASCII. *)
Definition code (c : ascii) : Z := Z.of_N (N_of_ascii c).

Definition is_digit (c : ascii) : bool :=
  (48 <=? code c) && (code c <=? 57).

Definition digit_value (c : ascii) : Z := code c - 48.

Definition digit_char (d : Z) : ascii := ascii_of_N (Z.to_N (48 + d)).

(** Decimal digits of a non-negative integer, most significant first.
    [fuel] bounds the number of digits. *)
Fixpoint digits_fuel (fuel : nat) (n : Z) (acc : string) : string :=
  match fuel with
  | O => acc
  | S fuel' =>
      let acc' := String (digit_char (n mod 10)) acc in
      if n <? 10 then acc' else digits_fuel fuel' (n / 10) acc'
  end.

(** [Number.prototype.toString] on an integer-valued Number. *)
Definition of_int (n : Z) : string :=
  if n <? 0
  then String "-" (digits_fuel (S (Z.to_nat (Z.log2 (- n)))) (- n) EmptyString)
  else digits_fuel (S (Z.to_nat (Z.log2 n))) n EmptyString.

Fixpoint repeat_char (c : ascii) (n : nat) : string :=
  match n with
  | O => EmptyString
  | S n' => String c (repeat_char c n')
  end.

(** [String.prototype.padStart(targetLength, fill)] for a one-character
    fill string: nothing is added once the string is long enough. *)
Definition padStart (s : string) (targetLength : nat) (fill : ascii) : string :=
  repeat_char fill (targetLength - String.length s) ++ s.

End Str.

(* ================================================================== *)
(** ** Number: IEEE 754 binary64 *)

Module Number.

Definition prec : Z := 53.
Definition emax : Z := 1024.

(** A JavaScript Number.  Every value the runtime produces is a valid
    binary64 datum ([well_formed]). *)
Definition number : Type := spec_float.

Definition well_formed (x : number) : bool := valid_binary prec emax x.

Definition NaN : number := S754_nan.
Definition Infinity : number := S754_infinity false.
Definition NegInfinity : number := S754_infinity true.

Definition is_nan (x : number) : bool :=
  match x with S754_nan => true | _ => false end.

Definition is_finite (x : number) : bool :=
  match x with S754_zero _ | S754_finite _ _ _ => true | _ => false end.

(** The operators [*], [<], [<=] on Numbers. *)
Definition mul (x y : number) : number := SFmul prec emax x y.
Definition ltb (x y : number) : bool := SFltb x y.
Definition leb (x y : number) : bool := SFleb x y.

(** The Number value of an integer: the nearest binary64, ties to even. *)
Definition of_int (z : Z) : number := binary_normalize prec emax z 0 false.

(** The Number value of the decimal numeral [digits * 10^exp10] with the
    given sign: the nearest binary64, ties to even (the rounding of numeric
    literals and of [parseFloat]).  A negative decimal exponent is a
    quotient of two integers, rounded once by the division. *)
Definition of_decimal (negative : bool) (digits exp10 : Z) : number :=
  match digits with
  | Zpos d =>
      if 0 <=? exp10
      then binary_round prec emax negative (d * Z.to_pos (10 ^ exp10)) 0
      else SFdiv prec emax (S754_finite negative d 0)
                           (S754_finite false (Z.to_pos (10 ^ (- exp10))) 0)
  | _ => S754_zero negative
  end.

(** *** parseFloat *)

Definition is_ascii_space (b : Z) : bool :=
  (b =? 9) || (b =? 10) || (b =? 11) || (b =? 12) || (b =? 13) || (b =? 32).

(** Three-byte UTF-8 encodings of the remaining WhiteSpace and
    LineTerminator code points: U+1680, U+2000..U+200A, U+2028, U+2029,
    U+202F, U+205F, U+3000, U+FEFF. *)
Definition is_space3 (b1 b2 b3 : Z) : bool :=
  ((b1 =? 225) && (b2 =? 154) && (b3 =? 128))
  || ((b1 =? 226) && (b2 =? 128)
      && (((128 <=? b3) && (b3 <=? 138)) || (b3 =? 168) || (b3 =? 169) || (b3 =? 175)))
  || ((b1 =? 226) && (b2 =? 129) && (b3 =? 159))
  || ((b1 =? 227) && (b2 =? 128) && (b3 =? 128))
  || ((b1 =? 239) && (b2 =? 187) && (b3 =? 191)).

(** TrimString(s, start). *)
Fixpoint trim_start (s : string) : string :=
  match s with
  | String c1 s1 =>
      if is_ascii_space (Str.code c1) then trim_start s1
      else
        match s1 with
        | String c2 s2 =>
            if (Str.code c1 =? 194) && (Str.code c2 =? 160) then trim_start s2
            else
              match s2 with
              | String c3 s3 =>
                  if is_space3 (Str.code c1) (Str.code c2) (Str.code c3)
                  then trim_start s3 else s
              | EmptyString => s
              end
        | EmptyString => s
        end
  | EmptyString => s
  end.

(** Reads the longest run of decimal digits: the value accumulated onto
    [acc], the number of digits read, and the rest of the string. *)
Fixpoint read_digits (s : string) (acc : Z) (count : Z) : Z * Z * string :=
  match s with
  | String c s' =>
      if Str.is_digit c
      then read_digits s' (10 * acc + Str.digit_value c) (count + 1)
      else (acc, count, s)
  | EmptyString => (acc, count, s)
  end.

(** ExponentPart, when one is present and complete; otherwise the
    literal ends before the [e] and the exponent is 0. *)
Definition exponent_part (s : string) : Z :=
  match s with
  | String c s1 =>
      if (Str.code c =? 101) || (Str.code c =? 69) then
        match s1 with
        | String "+" s2 => let '(v, _, _) := read_digits s2 0 0 in v
        | String "-" s2 => let '(v, _, _) := read_digits s2 0 0 in - v
        | _ => let '(v, _, _) := read_digits s1 0 0 in v
        end
      else 0
  | EmptyString => 0
  end.

(** The longest prefix that is a StrUnsignedDecimalLiteral other than
    [Infinity], as (digits, decimal exponent); [None] when there is none. *)
Definition unsigned_decimal (s : string) : option (Z * Z) :=
  let '(ip, ni, r1) := read_digits s 0 0 in
  match r1 with
  | String "." r2 =>
      let '(all, nf, r3) := read_digits r2 ip 0 in
      if (0 <? ni) || (0 <? nf)
      then Some (all, exponent_part r3 - nf)
      else None
  | _ => if 0 <? ni then Some (ip, exponent_part r1) else None
  end.

Definition unsigned_literal (negative : bool) (s : string) : number :=
  if String.prefix "Infinity" s then S754_infinity negative
  else
    match unsigned_decimal s with
    | Some (d, k) => of_decimal negative d k
    | None => NaN
    end.

(** [parseFloat(string)]: the longest prefix of the trimmed string that is
    a StrDecimalLiteral is converted; [NaN] when no prefix is one. *)
Definition parseFloat (input : string) : number :=
  match trim_start input with
  | String "+" s => unsigned_literal false s
  | String "-" s => unsigned_literal true s
  | s => unsigned_literal false s
  end.

(** *** Math *)

Definition is_neg_zero (x : number) : bool :=
  match x with S754_zero true => true | _ => false end.
Definition is_pos_zero (x : number) : bool :=
  match x with S754_zero false => true | _ => false end.

(** [Math.min(...args)]: starts from +Infinity; a NaN argument makes the
    result NaN; -0 counts as smaller than +0. *)
Fixpoint min_from (lowest : number) (args : list number) : number :=
  match args with
  | [] => lowest
  | x :: rest =>
      if is_nan x then NaN
      else if (is_neg_zero x && is_pos_zero lowest) || ltb x lowest
           then min_from x rest
           else min_from lowest rest
  end.

Definition Math_min (args : list number) : number := min_from Infinity args.

(** [Math.max(...args)]: starts from -Infinity; +0 counts as larger
    than -0. *)
Fixpoint max_from (highest : number) (args : list number) : number :=
  match args with
  | [] => highest
  | x :: rest =>
      if is_nan x then NaN
      else if (is_pos_zero x && is_neg_zero highest) || ltb highest x
           then max_from x rest
           else max_from highest rest
  end.

Definition Math_max (args : list number) : number := max_from NegInfinity args.

(** [Math.floor]: NaN, zeros and infinities are returned as they are; a
    finite value with a non-negative exponent is already integral. *)
Definition Math_floor (x : number) : number :=
  match x with
  | S754_finite s m e =>
      if 0 <=? e then x
      else
        let q := cond_Zopp s (Zpos m) / 2 ^ (- e) in
        binary_normalize prec emax q 0 false
  | _ => x
  end.

(** [Math.ceil]: a value in (-1, 0) gives -0. *)
Definition Math_ceil (x : number) : number :=
  match x with
  | S754_finite s m e =>
      if 0 <=? e then x
      else
        let q := - (cond_Zopp (negb s) (Zpos m) / 2 ^ (- e)) in
        binary_normalize prec emax q 0 s
  | _ => x
  end.

End Number.

(* ================================================================== *)
(** ** Date: time values, ISO parsing, local calendar fields *)

Module JSDate.

Definition msPerMinute : Z := 60000.
Definition msPerHour : Z := 3600000.
Definition msPerDay : Z := 86400000.

(** A Date object holds a time value: milliseconds since the epoch in UTC,
    or NaN ([None], an Invalid Date). *)
Definition date : Type := option Z.

(** MakeDay for a proleptic Gregorian date (month 1..12; the day may
    overflow into the following month). *)
Definition MakeDay (year month day : Z) : Z :=
  let y := if month <=? 2 then year - 1 else year in
  let era := y / 400 in
  let yoe := y - era * 400 in
  let mp := if 2 <? month then month - 3 else month + 9 in
  let doy := (153 * mp + 2) / 5 in
  let doe := yoe * 365 + yoe / 4 - yoe / 100 + doy in
  era * 146097 + doe - 719468 + (day - 1).

(** Day(t), and the calendar date (year, month 1..12, day) of a day
    number. *)
Definition Day (t : Z) : Z := t / msPerDay.

Definition civil (dayNumber : Z) : Z * Z * Z :=
  let z := dayNumber + 719468 in
  let era := z / 146097 in
  let doe := z - era * 146097 in
  let yoe := (doe - doe / 1460 + doe / 36524 - doe / 146096) / 365 in
  let doy := doe - (365 * yoe + yoe / 4 - yoe / 100) in
  let mp := (5 * doy + 2) / 153 in
  let d := doy - (153 * mp + 2) / 5 + 1 in
  let m := if mp <? 10 then mp + 3 else mp - 9 in
  (if m <=? 2 then yoe + era * 400 + 1 else yoe + era * 400, m, d).

(** MonthFromTime is zero-based, DateFromTime one-based. *)
Definition MonthFromTime (t : Z) : Z := let '(_, m, _) := civil (Day t) in m - 1.
Definition DateFromTime (t : Z) : Z := let '(_, _, d) := civil (Day t) in d.
Definition HourFromTime (t : Z) : Z := (t / msPerHour) mod 24.
Definition MinFromTime (t : Z) : Z := (t / msPerMinute) mod 60.

(** *** Date.parse

    A string in the ECMAScript date-time string format has a time value
    of its own.  [YYYY-MM-DD] alone is read as midnight UTC.
    [YYYY-MM-DDTHH:mm], optionally with [:ss] and [.sss], is read at the
    offset that follows it ([Z], [+HH:mm] or [-HH:mm]) and, when none
    follows, as local time.  How a string of any other shape is read
    (other lengths of the fraction, [+HHmm], lower-case letters, the
    legacy formats) is left to the engine. *)

(** What the host of the page decides: the offset of its local time zone
    from UTC, in milliseconds, at a time value ([LocalTZA_utc]) and at a
    local time value ([LocalTZA_local]), and the reading of the strings
    that are not in the format ([legacy]; [None] is NaN). *)
Record host : Type := {
  LocalTZA_utc : Z -> Z;
  LocalTZA_local : Z -> Z;
  legacy : string -> date
}.

Definition bind {A B : Type} (o : option A) (k : A -> option B) : option B :=
  match o with Some a => k a | None => None end.

Notation "x <- c ;; k" := (bind c (fun x => k))
  (at level 61, c at next level, right associativity).
Notation "' p <- c ;; k" := (bind c (fun x => let 'p := x in k))
  (at level 61, p pattern, c at next level, right associativity).

Fixpoint fixed_digits (n : nat) (s : string) (acc : Z) : option (Z * string) :=
  match n with
  | O => Some (acc, s)
  | S n' =>
      match s with
      | String c s' =>
          if Str.is_digit c
          then fixed_digits n' s' (10 * acc + Str.digit_value c)
          else None
      | EmptyString => None
      end
  end.

Definition expect (c : ascii) (s : string) : option string :=
  match s with
  | String c' s' => if Ascii.eqb c c' then Some s' else None
  | EmptyString => None
  end.

Definition starts_with (c : ascii) (s : string) : bool :=
  match s with
  | String c' _ => Ascii.eqb c c'
  | EmptyString => false
  end.

(** Seconds and milliseconds, both optional. *)
Definition seconds_part (s : string) : option (Z * Z * string) :=
  if starts_with ":" s then
    s1 <- expect ":" s ;;
    '(sec, s2) <- fixed_digits 2 s1 0 ;;
    if starts_with "." s2 then
      s3 <- expect "." s2 ;;
      '(ms, s4) <- fixed_digits 3 s3 0 ;;
      Some (sec, ms, s4)
    else Some (sec, 0, s2)
  else Some (0, 0, s).

(** The UTC offset representation, in minutes east of UTC. *)
Definition zone_part (s : string) : option Z :=
  match s with
  | String "Z" EmptyString => Some 0
  | String sign s1 =>
      if Ascii.eqb sign "+" || Ascii.eqb sign "-" then
        '(hh, s2) <- fixed_digits 2 s1 0 ;;
        s3 <- expect ":" s2 ;;
        '(mm, s4) <- fixed_digits 2 s3 0 ;;
        match s4 with
        | EmptyString =>
            if (hh <=? 23) && (mm <=? 59)
            then Some (if Ascii.eqb sign "-" then - (hh * 60 + mm) else hh * 60 + mm)
            else None
        | _ => None
        end
      else None
  | EmptyString => None
  end.

Definition valid_fields (month day hour minute sec ms : Z) : bool :=
  (1 <=? month) && (month <=? 12) && (1 <=? day) && (day <=? 31)
  && (minute <=? 59) && (sec <=? 59)
  && ((hour <=? 23) || ((hour =? 24) && (minute =? 0) && (sec =? 0) && (ms =? 0))).

(** The offset that ends the string; [None] when the string ends without
    one. *)
Definition offset_part (s : string) : option (option Z) :=
  match s with
  | EmptyString => Some None
  | _ => option_map Some (zone_part s)
  end.

(** The time value that the fields of a string in the format spell, with
    the offset they are to be read at: date-only forms are read at UTC. *)
Definition fields (s : string) : option (Z * option Z) :=
  '(year, s) <- fixed_digits 4 s 0 ;;
  s <- expect "-" s ;;
  '(month, s) <- fixed_digits 2 s 0 ;;
  s <- expect "-" s ;;
  '(day, s) <- fixed_digits 2 s 0 ;;
  match s with
  | EmptyString =>
      if valid_fields month day 0 0 0 0
      then Some (MakeDay year month day * msPerDay, Some 0)
      else None
  | _ =>
      s <- expect "T" s ;;
      '(hour, s) <- fixed_digits 2 s 0 ;;
      s <- expect ":" s ;;
      '(minute, s) <- fixed_digits 2 s 0 ;;
      '(sec, ms, s) <- seconds_part s ;;
      offset <- offset_part s ;;
      if valid_fields month day hour minute sec ms
      then Some (MakeDay year month day * msPerDay
                 + hour * msPerHour + minute * msPerMinute + sec * 1000 + ms,
                 offset)
      else None
  end.

(** [Date.parse], the time value of [new Date(string)]. *)
Definition parse (h : host) (s : string) : date :=
  match fields s with
  | Some (t, Some offset) => Some (t - offset * msPerMinute)
  | Some (t, None) => Some (t - LocalTZA_local h t)
  | None => legacy h s
  end.

(** *** Local calendar fields

    [LocalTZA t] is the offset of the host's local time zone from UTC at
    the instant [t], in milliseconds: the getters and [toLocaleString]
    read the fields of [t + LocalTZA t]. *)
Section Local.
Variable LocalTZA : Z -> Z.

Definition LocalTime (t : Z) : Z := t + LocalTZA t.

(** A getter result is a Number; [None] is NaN. *)
Definition getDate (d : date) : option Z :=
  option_map (fun t => DateFromTime (LocalTime t)) d.
Definition getMonth (d : date) : option Z :=
  option_map (fun t => MonthFromTime (LocalTime t)) d.
Definition getHours (d : date) : option Z :=
  option_map (fun t => HourFromTime (LocalTime t)) d.
Definition getMinutes (d : date) : option Z :=
  option_map (fun t => MinFromTime (LocalTime t)) d.

Definition month_short_en (m : Z) : string :=
  nth (Z.to_nat m)
      ["Jan"; "Feb"; "Mar"; "Apr"; "May"; "Jun";
       "Jul"; "Aug"; "Sep"; "Oct"; "Nov"; "Dec"] EmptyString.

(** [date.toLocaleString('en-US', { month: 'short' })]. *)
Definition toLocaleString_month_short (d : date) : string :=
  match d with
  | Some t => month_short_en (MonthFromTime (LocalTime t))
  | None => "Invalid Date"
  end.
End Local.

(** [toString] of a getter result. *)
Definition toString (n : option Z) : string :=
  match n with
  | Some z => Str.of_int z
  | None => "NaN"
  end.

End JSDate.

(* ================================================================== *)
(** ** Completions: a value, or a thrown error *)

Inductive js_error : Type :=
| Error (message : string)
| TypeError
| SyntaxError.

Inductive completion (A : Type) : Type :=
| Normal (value : A)
| Throw (e : js_error).

Arguments Normal {A} value.
Arguments Throw {A} e.

Definition cbind {A B : Type} (c : completion A) (k : A -> completion B) : completion B :=
  match c with
  | Normal a => k a
  | Throw e => Throw e
  end.

(** [Array.prototype.map] with a callback that may throw: elements are
    visited in order and the first throw abandons the call. *)
Fixpoint array_map {A B : Type} (f : A -> completion B) (xs : list A) : completion (list B) :=
  match xs with
  | [] => Normal []
  | x :: rest =>
      cbind (f x) (fun y => cbind (array_map f rest) (fun ys => Normal (y :: ys)))
  end.

(* ================================================================== *)
(** ** The page *)

Module Page.
Import Number.

(** One element of the JSON array the rate service returns.  The rates
    arrive as strings ([parseFloat] reads any other value through its string
    form). *)
Record RawRateRecord : Type := {
  raw_buying_rate : string;
  raw_selling_rate : string;
  raw_timestamp : string
}.

(** [interface ExchangeRateData]; [T] is the type of [formattedTime]: a
    string in the single-language revision of the page, the pair
    [{en, zh}] in the bilingual one. *)
Record ExchangeRateData (T : Type) : Type := {
  buying_rate : number;
  selling_rate : number;
  timestamp : string;
  formattedTime : T
}.
Arguments buying_rate {T} _.
Arguments selling_rate {T} _.
Arguments timestamp {T} _.
Arguments formattedTime {T} _.

(** [interface PageProps]. *)
Record PageProps (T : Type) : Type := {
  exchangeData : list (ExchangeRateData T);
  error : option string
}.
Arguments exchangeData {T} _.
Arguments error {T} _.

(** What the server may see of the request to the rate service: the
    promise of [fetch] rejects, or a response arrives with a status and a
    body that [response.json()] reads. *)
Inductive raw_item : Type :=
| ItemNull
| ItemObject (r : RawRateRecord).

Inductive json_body : Type :=
| BodyMalformed
| BodyNotArray
| BodyArray (items : list raw_item).

Inductive fetch_outcome : Type :=
| FetchRejected
| FetchResponse (status : Z) (body : json_body).

(** [response.ok]. *)
Definition ok (status : Z) : bool := (200 <=? status) && (status <=? 299).

(** What [getServerSideProps] hands back, with what it wrote through
    [console.error]. *)
Record served (T : Type) : Type := {
  props : PageProps T;
  console : list js_error
}.
Arguments props {T} _.
Arguments console {T} _.

Definition failure_message : string :=
  "Failed to fetch exchange rate data. Please try again later.".

Section Pipeline.
Context {T : Type}.
(** The [formattedTime] the callback builds from [item.timestamp]: it reads
    the string with [new Date] and formats the date. *)
Variable format_time : string -> T.

(** The object literal the [map] callback returns. *)
Definition format_record (item : RawRateRecord) : ExchangeRateData T :=
  {| buying_rate := parseFloat (raw_buying_rate item);
     selling_rate := parseFloat (raw_selling_rate item);
     timestamp := raw_timestamp item;
     formattedTime := format_time (raw_timestamp item) |}.

(** The callback; reading [item.timestamp] off [null] throws. *)
Definition format_item (item : raw_item) : completion (ExchangeRateData T) :=
  match item with
  | ItemNull => Throw TypeError
  | ItemObject r => Normal (format_record r)
  end.

(** [data.map(...).reverse()]. *)
Definition formattedData (data : list raw_item) : completion (list (ExchangeRateData T)) :=
  cbind (array_map format_item data) (fun mapped => Normal (rev mapped)).

(** The body of the [try] block. *)
Definition try_block (o : fetch_outcome) : completion (list (ExchangeRateData T)) :=
  match o with
  | FetchRejected => Throw TypeError
  | FetchResponse status body =>
      if negb (ok status)
      then Throw (Error ("API request failed with status " ++ Str.of_int status))
      else
        match body with
        | BodyMalformed => Throw SyntaxError
        | BodyNotArray => Throw TypeError
        | BodyArray data => formattedData data
        end
  end.

Definition getServerSideProps (o : fetch_outcome) : served T :=
  match try_block o with
  | Normal formatted =>
      {| props := {| exchangeData := formatted; error := None |};
         console := [] |}
  | Throw err =>
      {| props := {| exchangeData := []; error := Some failure_message |};
         console := [err] |}
  end.

(** The rates handed to [Math.min] and [Math.max]: the buying rates
    spread first, then the selling rates. *)
Definition rate_pool (exchangeData : list (ExchangeRateData T)) : list number :=
  map buying_rate exchangeData ++ map selling_rate exchangeData.

Definition minRate (exchangeData : list (ExchangeRateData T)) : number :=
  Math_floor (mul (Math_min (rate_pool exchangeData)) (of_decimal false 998 (-3))).

Definition maxRate (exchangeData : list (ExchangeRateData T)) : number :=
  Math_ceil (mul (Math_max (rate_pool exchangeData)) (of_decimal false 1002 (-3))).
End Pipeline.

(** The English display time, shared by both revisions. *)
Definition formattedTimeEn (LocalTZA : Z -> Z) (date : JSDate.date) : string :=
  let monthEn := JSDate.toLocaleString_month_short LocalTZA date in
  let dayEn := Str.padStart (JSDate.toString (JSDate.getDate LocalTZA date)) 2 "0" in
  let hoursEn := Str.padStart (JSDate.toString (JSDate.getHours LocalTZA date)) 2 "0" in
  let minutesEn := Str.padStart (JSDate.toString (JSDate.getMinutes LocalTZA date)) 2 "0" in
  monthEn ++ "-" ++ dayEn ++ " " ++ hoursEn ++ ":" ++ minutesEn.

End Page.

(* ================================================================== *)
(** ** [src/pages/index.tsx]: the bilingual page *)

Module Index.
Import Number Page.

Inductive Language : Type := en | zh.

Record FormattedTime : Type := {
  time_en : string;
  time_zh : string
}.

(** [item.formattedTime[language]]. *)
Definition select (f : FormattedTime) (language : Language) : string :=
  match language with
  | en => time_en f
  | zh => time_zh f
  end.

Record Translation : Type := {
  pageTitle : string;
  subtitle : string;
  buyingRateLabel : string;
  sellingRateLabel : string;
  rateLabel : string;
  dateTimeLabel : string;
  buyingRateDescription : string;
  sellingRateDescription : string;
  hoverDescription : string;
  dataSource : string;
  currentLanguage : string;
  switchLanguage : string
}.

Definition translations (language : Language) : Translation :=
  match language with
  | en =>
      {| pageTitle := "CNY to AUD Exchange Rate";
         subtitle := "Latest 10 records showing buying and selling rates";
         buyingRateLabel := "Buying Rate";
         sellingRateLabel := "Selling Rate";
         rateLabel := "Rate (CNY)";
         dateTimeLabel := "Date/Time";
         buyingRateDescription :=
           "• Bank's buying rate: how much CNY you get when selling 100 AUD";
         sellingRateDescription :=
           "• Bank's selling rate: how much CNY you need to buy 100 AUD";
         hoverDescription := "• Hover over points to see exact values";
         dataSource := "• Data source: BOC - Bank of China";
         currentLanguage := "Current Language: English";
         switchLanguage := "中文" |}
  | zh =>
      {| pageTitle := "人民币 兑 澳大利亚元 汇率";
         subtitle := "最新 10 条记录显示买入和卖出汇率";
         buyingRateLabel := "买入汇率";
         sellingRateLabel := "卖出汇率";
         rateLabel := "汇率 (人民币)";
         dateTimeLabel := "日期/时间";
         buyingRateDescription := "• 银行买入汇率：出售 100 澳元可获得多少人民币";
         sellingRateDescription := "• 银行卖出汇率：购买 100 澳元需要多少人民币";
         hoverDescription := "• 将鼠标悬停在点上可查看确切值";
         dataSource := "• 数据源：中国银行";
         currentLanguage := "当前语言：中文";
         switchLanguage := "English" |}
  end.

Section Host.
Variable LocalTZA : Z -> Z.

Definition formattedTimeZh (date : JSDate.date) : string :=
  let monthZh := JSDate.toString (option_map (fun m => m + 1) (JSDate.getMonth LocalTZA date)) in
  let dayZh := JSDate.toString (JSDate.getDate LocalTZA date) in
  let hoursZh := Str.padStart (JSDate.toString (JSDate.getHours LocalTZA date)) 2 "0" in
  let minutesZh := Str.padStart (JSDate.toString (JSDate.getMinutes LocalTZA date)) 2 "0" in
  monthZh ++ "月" ++ dayZh ++ "日 " ++ hoursZh ++ ":" ++ minutesZh.

(** [formattedTime: { en: formattedTimeEn, zh: formattedTimeZh }]. *)
Definition format_date (date : JSDate.date) : FormattedTime :=
  {| time_en := formattedTimeEn LocalTZA date;
     time_zh := formattedTimeZh date |}.
End Host.

(** The part of the callback that deals with the time:
    [const date = new Date(item.timestamp)] and the two display times. *)
Definition format_time (h : JSDate.host) (timestamp : string) : FormattedTime :=
  let date := JSDate.parse h timestamp in
  format_date (JSDate.LocalTZA_utc h) date.

Definition getServerSideProps (h : JSDate.host) : fetch_outcome -> served FormattedTime :=
  Page.getServerSideProps (format_time h).

(** [useState<'en' | 'zh'>('en')]: the language of the first render. *)
Definition initialLanguage : Language := en.

(** The handler of the language button, built from the [language] of the
    render that is on screen: the state the next render sees. *)
Definition toggleLanguage (language : Language) : Language :=
  match language with
  | en => zh
  | zh => en
  end.

(** [localizedData]. *)
Definition localizedData (exchangeData : list (ExchangeRateData FormattedTime))
           (language : Language) : list (ExchangeRateData string) :=
  map (fun item =>
         {| buying_rate := buying_rate item;
            selling_rate := selling_rate item;
            timestamp := timestamp item;
            formattedTime := select (formattedTime item) language |})
      exchangeData.

(** What the component returns: the error panel, or the chart page with
    its strings, its data and the domain of the value axis. *)
Inductive view : Type :=
| ErrorPanel (message : string)
| ChartPage (t : Translation) (data : list (ExchangeRateData string))
            (domain : number * number).

(** [if (error)] takes the early return on a non-empty string; [null] and
    the empty string are falsy. *)
Definition CurrencyExchangeGraph (p : PageProps FormattedTime) (language : Language) : view :=
  match error p with
  | Some (String c rest) => ErrorPanel (String c rest)
  | _ =>
      ChartPage (translations language)
                (localizedData (exchangeData p) language)
                (minRate (exchangeData p), maxRate (exchangeData p))
  end.

End Index.

(* ================================================================== *)
(** ** The single-language revision of the page *)

Module Single.
Import Number Page.

(** [const date = new Date(item.timestamp)] and the display time. *)
Definition format_time (h : JSDate.host) (timestamp : string) : string :=
  let date := JSDate.parse h timestamp in
  formattedTimeEn (JSDate.LocalTZA_utc h) date.

Definition getServerSideProps (h : JSDate.host) : fetch_outcome -> served string :=
  Page.getServerSideProps (format_time h).

Inductive view : Type :=
| ErrorPanel (message : string)
| ChartPage (data : list (ExchangeRateData string)) (domain : number * number).

Definition CurrencyExchangeGraph (p : PageProps string) : view :=
  match error p with
  | Some (String c rest) => ErrorPanel (String c rest)
  | _ => ChartPage (exchangeData p) (minRate (exchangeData p), maxRate (exchangeData p))
  end.

End Single.

(* ================================================================== *)
(** ** Vocabulary of the properties *)

Module Props.
Import Number Page.

(** The instants a list of timestamps denotes under a reading [read] of
    timestamps as dates ([Date.parse] on some host, say), when every one
    of them is a valid date. *)
Fixpoint instants (read : string -> JSDate.date) (timestamps : list string)
  : option (list Z) :=
  match timestamps with
  | [] => Some []
  | ts :: rest =>
      match read ts, instants read rest with
      | Some t, Some l => Some (t :: l)
      | _, _ => None
      end
  end.

Fixpoint ascending (l : list Z) : bool :=
  match l with
  | a :: tl =>
      match tl with
      | b :: _ => (a <=? b) && ascending tl
      | [] => true
      end
  | [] => true
  end.

Fixpoint descending (l : list Z) : bool :=
  match l with
  | a :: tl =>
      match tl with
      | b :: _ => (b <=? a) && descending tl
      | [] => true
      end
  | [] => true
  end.

(** Timestamps in non-decreasing order of their instants (oldest first). *)
Definition chronological (read : string -> JSDate.date) (timestamps : list string) : bool :=
  match instants read timestamps with
  | Some l => ascending l
  | None => false
  end.

(** Timestamps in non-increasing order of their instants, the order in
    which the rate service lists its latest records. *)
Definition newest_first (read : string -> JSDate.date) (timestamps : list string) : bool :=
  match instants read timestamps with
  | Some l => descending l
  | None => false
  end.

(** A rate string is numeric when, after leading white space and an
    optional sign, it begins with [Infinity], a digit, or a point followed
    by a digit. *)
Definition begins_numeral (s : string) : bool :=
  String.prefix "Infinity" s
  || match s with
     | String c s' =>
         Str.is_digit c
         || (Ascii.eqb c "."
             && match s' with
                | String c' _ => Str.is_digit c'
                | EmptyString => false
                end)
     | EmptyString => false
     end.

Definition numeric (s : string) : bool :=
  match trim_start s with
  | String "+" s' => begins_numeral s'
  | String "-" s' => begins_numeral s'
  | s' => begins_numeral s'
  end.

(** *** Numbers as values *)

(** [shr_1] halves the mantissa and keeps track of what was dropped:
    after [k] steps from [m0] the mantissa is the quotient of [m0] by
    [2^k], and a raised round or sticky bit means the division was inexact. *)
Definition shifted (k : Z) (m0 : Z) (mrs : shr_record) : Prop :=
  0 <= shr_m mrs
  /\ shr_m mrs * 2 ^ k <= m0 < (shr_m mrs + 1) * 2 ^ k
  /\ (shr_r mrs || shr_s mrs = true -> shr_m mrs * 2 ^ k < m0).

(** The mantissa after [k] halvings is the quotient by [2^k], whatever the
    round and sticky bits were at the start. *)
Definition floored (k : Z) (m0 : Z) (mrs : shr_record) : Prop :=
  0 <= shr_m mrs /\ shr_m mrs * 2 ^ k <= m0 < (shr_m mrs + 1) * 2 ^ k.

(** Rounding to nearest moves the quotient by less than one unit. *)
Definition near (k : Z) (m0 m1 : Z) : Prop :=
  0 <= m1 /\ m0 < (m1 + 1) * 2 ^ k /\ m1 * 2 ^ k < m0 + 2 ^ k.

(** After [k] halvings the round bit is the last bit that was dropped and
    the sticky bit tells whether anything was dropped after it: twice the
    starting mantissa is [(2 * m + r) * 2^k + t] with [t] below [2^k], and
    the sticky bit is raised exactly when [t] is positive. *)
Definition halved (k : Z) (m0 : Z) (mrs : shr_record) : Prop :=
  exists t : Z,
    2 * m0 = (2 * shr_m mrs + Z.b2z (shr_r mrs)) * 2 ^ k + t
    /\ 0 <= t < 2 ^ k
    /\ (shr_s mrs = true <-> 0 < t).

(** Rounding to nearest moves the quotient by at most half a unit. *)
Definition nearest (k : Z) (m0 m1 : Z) : Prop :=
  - 2 ^ k <= 2 * m0 - 2 * m1 * 2 ^ k <= 2 ^ k.

(** The datum [binary_round_aux] builds from a rounded mantissa [m1] at
    exponent [e1]: a mantissa that reached [2^53] is renormalised, and an
    exponent above the largest one overflows. *)
Definition rounded (s : bool) (m1 e1 : Z) : number :=
  if m1 =? 0 then S754_zero s
  else if m1 =? 2 ^ 53
       then if e1 + 1 <=? 971 then S754_finite s (Z.to_pos (2 ^ 52)) (e1 + 1)
            else S754_infinity s
       else if e1 <=? 971 then S754_finite s (Z.to_pos m1) e1
            else S754_infinity s.

(** Value of a finite Number in units of 2^-1074. *)
Definition ulps (x : number) : Z :=
  match x with
  | S754_finite s m e => cond_Zopp s (Zpos m * 2 ^ (e + 1074))
  | _ => 0
  end.


(** A well-formed Number that is +0 or positive and finite. *)
Definition nonneg_finite (x : number) : bool :=
  match x with
  | S754_zero false => true
  | S754_finite false m e => bounded prec emax m e
  | _ => false
  end.

(** The order of [<] and [<=] on the Numbers other than NaN, as the
    lexicographic order of a class, an exponent and a mantissa. *)
Definition rank (x : number) : Z * Z * Z :=
  match x with
  | S754_infinity true => (-2, 0, 0)
  | S754_finite true m e => (-1, - e, - Zpos m)
  | S754_zero _ => (0, 0, 0)
  | S754_finite false m e => (1, e, Zpos m)
  | S754_infinity false => (2, 0, 0)
  | S754_nan => (3, 0, 0)
  end.

Definition lex_le (a b : Z * Z * Z) : Prop :=
  let '(a1, a2, a3) := a in
  let '(b1, b2, b3) := b in
  a1 < b1 \/ (a1 = b1 /\ (a2 < b2 \/ (a2 = b2 /\ a3 <= b3))).

(** A rate is positive: a well-formed finite Number above zero. *)
Definition positive_rate (x : number) : bool :=
  well_formed x && is_finite x && ltb (S754_zero false) x.

End Props.

(* ================================================================== *)
(** ** Sample inputs *)

Module Samples.
Import Page.

(** A host whose local time is at a fixed offset from UTC and whose engine
    reads no string outside the format (engines in use read more: that is
    what [legacy] stands for); one in UTC, and one eight hours east of
    it. *)
Definition at_offset (ms : Z) : JSDate.host :=
  {| JSDate.LocalTZA_utc := fun _ => ms;
     JSDate.LocalTZA_local := fun _ => ms;
     JSDate.legacy := fun _ => None |}.
Definition utc : JSDate.host := at_offset 0.
Definition utc_plus_8 : JSDate.host := at_offset (8 * JSDate.msPerHour).

Definition march_first : RawRateRecord :=
  {| raw_buying_rate := "4.62";
     raw_selling_rate := "4.88";
     raw_timestamp := "2024-03-01T09:05:00Z" |}.

Definition at_nine : RawRateRecord :=
  {| raw_buying_rate := "4.60";
     raw_selling_rate := "4.85";
     raw_timestamp := "2024-03-01T09:00:00Z" |}.

Definition at_ten : RawRateRecord :=
  {| raw_buying_rate := "4.65";
     raw_selling_rate := "4.90";
     raw_timestamp := "2024-03-01T10:00:00Z" |}.

(** A record whose timestamp has no offset: nine o'clock local time. *)
Definition local_nine : RawRateRecord :=
  {| raw_buying_rate := "4.60";
     raw_selling_rate := "4.85";
     raw_timestamp := "2024-03-01T09:00:00" |}.

Definition garbled : RawRateRecord :=
  {| raw_buying_rate := "abc";
     raw_selling_rate := "4.88";
     raw_timestamp := "2024-03-01T09:05:00Z" |}.

Definition unbounded : RawRateRecord :=
  {| raw_buying_rate := "Infinity";
     raw_selling_rate := "Infinity";
     raw_timestamp := "2024-03-01T09:05:00Z" |}.



End Samples.

(* ================================================================== *)
(** ** The tooltip of the chart *)

Module Tooltip.
Import Number.

(** The hundredths nearest to a positive finite value [m * 2^e]: the
    integer [n] for which [n / 100] is closest to it, the larger one of two
    equally close. *)
Definition nearest_hundredth (m : positive) (e : Z) : Z :=
  if 0 <=? e then 100 * Zpos m * 2 ^ e
  else (200 * Zpos m + 2 ^ (- e)) / 2 ^ (1 - e).

(** The digits of [n] with a point before the last two, padded with zeros
    to at least three digits. *)
Definition fixed_point (n : Z) : string :=
  let m := Str.padStart (Str.of_int n) 3 "0" in
  let k := String.length m in
  (String.substring 0 (k - 2) m ++ "." ++ String.substring (k - 2) 2 m)%string.

Section Runtime.
(** [Number::toString] on the finite values from 10^21 on, where [toFixed]
    hands over to it. *)
Variable ToString : number -> string.

(** [Number.prototype.toFixed(2)].  A value that is not finite is written
    by [Number::toString].  Otherwise a value below zero gives the sign and
    is negated (minus zero is not below zero and has no sign); from 10^21
    on the digits are those of [ToString]; below it they are those of the
    nearest hundredth, with the point before the last two. *)
Definition toFixed2 (x : number) : string :=
  match x with
  | S754_nan => "NaN"
  | S754_infinity false => "Infinity"
  | S754_infinity true => "-Infinity"
  | S754_zero _ => fixed_point 0
  | S754_finite s m e =>
      (if s then "-" else EmptyString)
      ++ (if (0 <=? e) && (10 ^ 21 <=? Zpos m * 2 ^ e)
          then ToString (S754_finite false m e)
          else fixed_point (nearest_hundredth m e))
  end.

(** [formatter={(value: number) => [`${value.toFixed(2)} CNY`, '']}]. *)
Definition formatter (value : number) : string * string :=
  (toFixed2 value ++ " CNY", EmptyString).
End Runtime.

(** [labelFormatter={(label) => `${t.dateTimeLabel}: ${label}`}] of the
    bilingual page. *)
Definition labelFormatter (t : Index.Translation) (label : string) : string :=
  Index.dateTimeLabel t ++ ": " ++ label.

End Tooltip.

(* ================================================================== *)
(** ** Usable responses *)

Module Served.
Import Page.

(** The records of an array of items, when none of them is [null]. *)
Fixpoint records_of (data : list raw_item) : option (list RawRateRecord) :=
  match data with
  | [] => Some []
  | ItemNull :: _ => None
  | ItemObject r :: rest =>
      match records_of rest with
      | Some rs => Some (r :: rs)
      | None => None
      end
  end.

(** The outcomes of the request that carry usable data: a response with a
    status in 200..299 whose body is an array without [null] elements. *)
Definition usable (o : fetch_outcome) : option (list RawRateRecord) :=
  match o with
  | FetchResponse status (BodyArray data) =>
      if ok status then records_of data else None
  | _ => None
  end.

End Served.

(* ================================================================== *)
(** ** Written timestamps and the calendar *)

Module Written.

(** Two decimal digits of a number below 100, four of one below 10000. *)
Definition two_digits (n : Z) : string :=
  String (Str.digit_char (n / 10)) (String (Str.digit_char (n mod 10)) EmptyString).

Definition four_digits (n : Z) : string :=
  String (Str.digit_char (n / 1000))
         (String (Str.digit_char (n / 100 mod 10)) (two_digits (n mod 100))).

Definition is_leap_year (y : Z) : bool :=
  ((y mod 4 =? 0) && negb (y mod 100 =? 0)) || (y mod 400 =? 0).

Definition days_in_month (leap : bool) (m : Z) : Z :=
  if m =? 2 then (if leap then 29 else 28)
  else if (m =? 4) || (m =? 6) || (m =? 9) || (m =? 11) then 30 else 31.

(** The calendar fields a timestamp spells out. *)
Record wall_clock : Type := {
  year : Z; month : Z; day : Z; hour : Z; minute : Z; second : Z
}.

Definition valid_wall_clock (w : wall_clock) : bool :=
  (0 <=? year w) && (year w <=? 9999)
  && (1 <=? month w) && (month w <=? 12)
  && (1 <=? day w) && (day w <=? days_in_month (is_leap_year (year w)) (month w))
  && (0 <=? hour w) && (hour w <=? 23)
  && (0 <=? minute w) && (minute w <=? 59)
  && (0 <=? second w) && (second w <=? 59).

(** The designator of an offset of [offset] minutes east of UTC. *)
Definition zone_designator (offset : Z) : string :=
  if offset =? 0 then "Z"
  else String (if offset <? 0 then "-"%char else "+"%char)
              (two_digits (Z.abs offset / 60) ++ ":" ++ two_digits (Z.abs offset mod 60)).

(** [YYYY-MM-DDTHH:mm:ss] followed by the designator. *)
Definition written (w : wall_clock) (offset : Z) : string :=
  four_digits (year w) ++ "-" ++ two_digits (month w) ++ "-" ++ two_digits (day w)
  ++ "T" ++ two_digits (hour w) ++ ":" ++ two_digits (minute w)
  ++ ":" ++ two_digits (second w) ++ zone_designator offset.

(** The calendar inside one 400-year cycle: the day of the cycle on which
    a month of a year of the cycle begins (years start in March), and the
    date of a day of the cycle. *)
Definition cycle_day (yoe m : Z) : Z :=
  let mp := if 2 <? m then m - 3 else m + 9 in
  yoe * 365 + yoe / 4 - yoe / 100 + (153 * mp + 2) / 5.

Definition cycle_date (doe : Z) : Z * Z * Z :=
  let yoe := (doe - doe / 1460 + doe / 36524 - doe / 146096) / 365 in
  let doy := doe - (365 * yoe + yoe / 4 - yoe / 100) in
  let mp := (5 * doy + 2) / 153 in
  let d := doy - (153 * mp + 2) / 5 + 1 in
  let m := if mp <? 10 then mp + 3 else mp - 9 in
  (yoe, m, d).

(** A check over a range of integers. *)
Fixpoint all_from (P : Z -> bool) (start : Z) (count : nat) : bool :=
  match count with
  | O => true
  | S c => P start && all_from P (start + 1) c
  end.

End Written.

(* ================================================================== *)
(** ** Lists and completions *)

Section ArrayMap.
Context {A B : Type}.

Lemma array_map_length (f : A -> completion B) (xs : list A) (ys : list B) :
  array_map f xs = Normal ys -> List.length ys = List.length xs.
Proof.
  revert ys. induction xs as [|x xs IH]; simpl; intros ys H.
  - inversion H. reflexivity.
  - destruct (f x) as [y|e]; simpl in H; [|discriminate].
    destruct (array_map f xs) as [ys'|e]; simpl in H; [|discriminate].
    inversion H. simpl. f_equal. apply IH. reflexivity.
Qed.
End ArrayMap.

Section Order.
Import Props.

Lemma ascending_snoc (l : list Z) (a b : Z) :
  ascending (l ++ [a]) = true -> a <= b -> ascending ((l ++ [a]) ++ [b]) = true.
Proof.
  induction l as [|x l IH]; simpl; intros H Hab.
  - apply andb_true_iff. split; [apply Z.leb_le; exact Hab | reflexivity].
  - destruct l as [|y l]; simpl in *.
    + apply andb_true_iff in H. destruct H as [H1 _].
      rewrite H1. simpl. apply andb_true_iff.
      split; [apply Z.leb_le; exact Hab | reflexivity].
    + apply andb_true_iff in H. destruct H as [H1 H2].
      rewrite H1. simpl. apply IH; assumption.
Qed.

Lemma descending_rev (l : list Z) :
  descending l = true -> ascending (rev l) = true.
Proof.
  induction l as [|a l IH]; simpl; intros H; [reflexivity|].
  destruct l as [|b l]; [reflexivity|].
  apply andb_true_iff in H. destruct H as [Hba Hd].
  simpl in *. apply ascending_snoc.
  - apply IH. exact Hd.
  - apply Z.leb_le. exact Hba.
Qed.

Lemma instants_app (read : string -> JSDate.date) (l1 l2 : list string) :
  instants read (l1 ++ l2) =
  match instants read l1, instants read l2 with
  | Some a, Some b => Some (a ++ b)%list
  | _, _ => None
  end.
Proof.
  induction l1 as [|ts l1 IH]; simpl.
  - destruct (instants read l2); reflexivity.
  - rewrite IH. destruct (read ts); [|reflexivity].
    destruct (instants read l1); [|reflexivity].
    destruct (instants read l2); reflexivity.
Qed.

Lemma instants_rev (read : string -> JSDate.date) (l : list string) :
  instants read (rev l) = option_map (@rev Z) (instants read l).
Proof.
  induction l as [|ts l IH]; simpl; [reflexivity|].
  rewrite instants_app, IH. simpl.
  destruct (read ts) as [t|].
  - destruct (instants read l); reflexivity.
  - destruct (instants read l); reflexivity.
Qed.

Lemma newest_first_rev (read : string -> JSDate.date) (l : list string) :
  newest_first read l = true -> chronological read (rev l) = true.
Proof.
  unfold newest_first, chronological. rewrite instants_rev.
  destruct (instants read l) as [ts|]; simpl; [|discriminate].
  apply descending_rev.
Qed.
End Order.

(* ================================================================== *)
(** ** The transform step: [data.map(...).reverse()] *)

Section Transform.
Import Props Page.
Context {T : Type}.
Variable format_time : string -> T.

(** On an array of records the callback never throws: the step is the
    reversal of the element-wise formatting. *)
Lemma formattedData_records (raw : list RawRateRecord) :
  formattedData format_time (map ItemObject raw)
  = Normal (rev (map (format_record format_time) raw)).
Proof.
  unfold formattedData.
  assert (H : array_map (format_item format_time) (map ItemObject raw)
              = Normal (map (format_record format_time) raw)).
  { induction raw as [|r raw IH]; simpl; [reflexivity|].
    rewrite IH. reflexivity. }
  rewrite H. reflexivity.
Qed.

Lemma timestamps_of_records (raw : list RawRateRecord) :
  map timestamp (map (format_record format_time) raw) = map raw_timestamp raw.
Proof.
  rewrite map_map. apply map_ext. intros r. reflexivity.
Qed.

Lemma formattedData_length (data : list raw_item) (out : list (ExchangeRateData T)) :
  formattedData format_time data = Normal out -> List.length out = List.length data.
Proof.
  unfold formattedData. intros H.
  destruct (array_map (format_item format_time) data) as [mapped|e] eqn:E;
    simpl in H; [|discriminate].
  inversion H. rewrite length_rev. eapply array_map_length. exact E.
Qed.
End Transform.

(* ================================================================== *)
(** ** Ordering and length of the transformed data *)

Section TransformClaims.
Import Props Page Samples.

(** C1, as stated, fails: the step reverses and does not sort, so an
    input that is already oldest-first comes out newest-first. *)
Lemma transform_reverses_oldest_first_input :
  formattedData (Index.format_time utc) (map ItemObject [at_nine; at_ten])
  = Normal (map (format_record (Index.format_time utc)) [at_ten; at_nine])
  /\ chronological (JSDate.parse utc)
       (map timestamp (map (format_record (Index.format_time utc)) [at_ten; at_nine]))
     = false.
Proof.
  split.
  - rewrite formattedData_records. reflexivity.
  - vm_compute. reflexivity.
Qed.

(** C1 (amended): for every array of raw records the transform step
    returns normally, its output has the length of the input and carries
    the input's timestamps in reverse order; when the input is newest-first
    (non-increasing instants) the output timestamps are in non-decreasing,
    chronological order.  The order holds for every reading of the
    timestamps as dates, so for [Date.parse] on every host and for
    timestamps of every form that host reads. *)
Theorem transform_length_and_order :
  forall (T : Type) (format_time : string -> T) (raw : list RawRateRecord),
  exists out,
    formattedData format_time (map ItemObject raw) = Normal out
    /\ List.length out = List.length raw
    /\ map timestamp out = rev (map raw_timestamp raw)
    /\ forall read : string -> JSDate.date,
         newest_first read (map raw_timestamp raw) = true ->
         chronological read (map timestamp out) = true.
Proof.
  intros T format_time raw.
  exists (rev (map (format_record format_time) raw)).
  assert (Hts : map timestamp (rev (map (format_record format_time) raw))
                = rev (map raw_timestamp raw)).
  { rewrite map_rev, timestamps_of_records. reflexivity. }
  split; [apply formattedData_records|].
  split; [rewrite length_rev, length_map; reflexivity|].
  split; [exact Hts|].
  intros read Hnew. rewrite Hts. apply newest_first_rev. exact Hnew.
Qed.

Lemma transform_length_and_order_witness :
  exists out,
    formattedData (Index.format_time utc_plus_8) (map ItemObject [at_ten; local_nine])
    = Normal out
    /\ List.length out = 2%nat
    /\ chronological (JSDate.parse utc_plus_8) (map timestamp out) = true.
Proof.
  destruct (transform_length_and_order _ (Index.format_time utc_plus_8) [at_ten; local_nine])
    as (out & Hout & Hlen & _ & Hord).
  exists out. split; [exact Hout|]. split; [exact Hlen|].
  apply Hord. vm_compute. reflexivity.
Defined.

(** C8: the reorder step is a round trip.  Reversing any array of
    records twice gives the array back; and reversing the output of the
    transform step gives the formatted records in the order of the input,
    with the input's timestamps. *)
Theorem reorder_round_trip :
  forall (T : Type) (format_time : string -> T),
    (forall records : list (ExchangeRateData T), rev (rev records) = records)
    /\ forall raw : list RawRateRecord,
       exists out,
         formattedData format_time (map ItemObject raw) = Normal out
         /\ rev out = map (format_record format_time) raw
         /\ map timestamp (rev out) = map raw_timestamp raw.
Proof.
  intros T format_time. split; [apply rev_involutive|].
  intros raw.
  exists (rev (map (format_record format_time) raw)).
  split; [apply formattedData_records|].
  rewrite rev_involutive.
  split; [reflexivity|apply timestamps_of_records].
Qed.
End TransformClaims.

(* ================================================================== *)
(** ** Display times *)

Section DisplayTime.
Import Page Samples.

(** C3, as stated, fails on a host whose local time is not UTC: the
    getters read local calendar fields, so eight hours east of UTC the same
    record is shown at 17:05. *)
Lemma display_time_follows_host_zone :
  formattedTime (format_record (Index.format_time utc_plus_8) march_first)
  = {| Index.time_en := "Mar-01 17:05"; Index.time_zh := "3月1日 17:05" |}
  /\ Index.time_en (formattedTime (format_record (Index.format_time utc_plus_8) march_first))
     <> "Mar-01 09:05".
Proof.
  split.
  - vm_compute. reflexivity.
  - vm_compute. discriminate.
Qed.

(** C3 (amended): on a host whose local-time offset at that instant is
    zero, the raw record with buying rate "4.62", selling rate "4.88" and
    timestamp "2024-03-01T09:05:00Z" gets the English display time
    "Mar-01 09:05" and the Chinese display time "3月1日 09:05". *)
Theorem display_time_of_march_first :
  forall h : JSDate.host,
    JSDate.LocalTZA_utc h 1709283900000 = 0 ->
    formattedTime (format_record (Index.format_time h) march_first)
    = {| Index.time_en := "Mar-01 09:05"; Index.time_zh := "3月1日 09:05" |}.
Proof.
  intros h Hzone.
  unfold format_record. cbn [formattedTime raw_timestamp march_first].
  assert (E : JSDate.parse h "2024-03-01T09:05:00Z" = Some 1709283900000)
    by (vm_compute; reflexivity).
  unfold Index.format_time. rewrite E.
  unfold Index.format_date, formattedTimeEn, Index.formattedTimeZh,
    JSDate.toLocaleString_month_short, JSDate.getDate, JSDate.getMonth,
    JSDate.getHours, JSDate.getMinutes, JSDate.LocalTime.
  cbn [option_map]. rewrite Hzone.
  vm_compute. reflexivity.
Qed.

Lemma display_time_of_march_first_witness :
  JSDate.LocalTZA_utc utc 1709283900000 = 0
  /\ formattedTime (format_record (Index.format_time utc) march_first)
     = {| Index.time_en := "Mar-01 09:05"; Index.time_zh := "3月1日 09:05" |}.
Proof.
  split; [reflexivity|].
  apply (display_time_of_march_first utc). reflexivity.
Defined.
End DisplayTime.

(* ================================================================== *)
(** ** The page boundary: errors, the error panel, the language toggle *)

Section Boundary.
Import Number Page Samples.

(** C9: whenever [getServerSideProps] returns a non-null error, the
    [exchangeData] it returns is the empty array. *)
Theorem error_comes_with_no_data :
  forall (T : Type) (format_time : string -> T) (o : fetch_outcome),
    error (props (getServerSideProps format_time o)) <> None ->
    exchangeData (props (getServerSideProps format_time o)) = [].
Proof.
  intros T format_time o H. unfold getServerSideProps in *.
  destruct (try_block format_time o) as [formatted|err]; simpl in *.
  - exfalso. apply H. reflexivity.
  - reflexivity.
Qed.

Lemma error_comes_with_no_data_witness :
  error (props (Index.getServerSideProps utc
                  (FetchResponse 200 (BodyArray [ItemObject at_ten; ItemNull])))) <> None
  /\ exchangeData (props (Index.getServerSideProps utc
                  (FetchResponse 200 (BodyArray [ItemObject at_ten; ItemNull])))) = [].
Proof.
  assert (H : error (props (Index.getServerSideProps utc
                  (FetchResponse 200 (BodyArray [ItemObject at_ten; ItemNull])))) <> None)
    by (vm_compute; discriminate).
  split; [exact H|].
  apply (error_comes_with_no_data _ (Index.format_time utc)). exact H.
Defined.

(** C6: for every response whose status is outside 200..299 the [try]
    block throws an error whose message carries the status;
    [getServerSideProps] logs it and returns the generic message with no
    data, and the component renders the error panel and no chart. *)
Theorem non_ok_status_renders_error_panel :
  forall (h : JSDate.host) (status : Z) (body : json_body) (language : Index.Language),
    ~ (200 <= status <= 299) ->
    try_block (Index.format_time h) (FetchResponse status body)
    = Throw (Error ("API request failed with status " ++ Str.of_int status))
    /\ Index.getServerSideProps h (FetchResponse status body)
       = {| props := {| exchangeData := []; error := Some failure_message |};
            console := [Error ("API request failed with status " ++ Str.of_int status)] |}
    /\ Index.CurrencyExchangeGraph
         (props (Index.getServerSideProps h (FetchResponse status body))) language
       = Index.ErrorPanel failure_message.
Proof.
  intros h status body language Hstatus.
  assert (Hok : ok status = false).
  { unfold ok. apply andb_false_iff.
    destruct (Z.leb_spec 200 status); [right|left; reflexivity].
    apply Z.leb_gt. lia. }
  assert (Htry : try_block (Index.format_time h) (FetchResponse status body)
                 = Throw (Error ("API request failed with status " ++ Str.of_int status))).
  { unfold try_block. rewrite Hok. reflexivity. }
  split; [exact Htry|].
  unfold Index.getServerSideProps, getServerSideProps. rewrite Htry.
  split; reflexivity.
Qed.

Lemma non_ok_status_renders_error_panel_witness :
  ~ (200 <= 500 <= 299)
  /\ Index.getServerSideProps utc (FetchResponse 500 BodyMalformed)
     = {| props := {| exchangeData := []; error := Some failure_message |};
          console := [Error "API request failed with status 500"] |}
  /\ Index.CurrencyExchangeGraph
       (props (Index.getServerSideProps utc (FetchResponse 500 BodyMalformed))) Index.en
     = Index.ErrorPanel failure_message.
Proof.
  assert (H : ~ (200 <= 500 <= 299)) by lia.
  split; [exact H|].
  destruct (non_ok_status_renders_error_panel utc 500 BodyMalformed Index.en H)
    as (_ & Hserved & Hview).
  split; [exact Hserved|exact Hview].
Defined.

(** C10: the language toggle is an involution, and after any number of
    toggles the locale is the starting one or the other one, hence always
    [en] or [zh]. *)
Theorem toggleLanguage_involution :
  forall language : Index.Language,
    Index.toggleLanguage (Index.toggleLanguage language) = language
    /\ forall n : nat,
         Nat.iter n Index.toggleLanguage language
         = (if Nat.even n then language else Index.toggleLanguage language)
         /\ (Nat.iter n Index.toggleLanguage language = Index.en
             \/ Nat.iter n Index.toggleLanguage language = Index.zh).
Proof.
  intros language.
  assert (Hinv : forall l, Index.toggleLanguage (Index.toggleLanguage l) = l)
    by (intros []; reflexivity).
  split; [apply Hinv|].
  intros n. split.
  - induction n as [n IH] using (well_founded_induction Wf_nat.lt_wf).
    destruct n as [|[|n]]; try reflexivity.
    change (Nat.iter (S (S n)) Index.toggleLanguage language)
      with (Index.toggleLanguage (Index.toggleLanguage
              (Nat.iter n Index.toggleLanguage language))).
    rewrite Hinv. rewrite IH by lia. reflexivity.
  - destruct (Nat.iter n Index.toggleLanguage language); [left|right]; reflexivity.
Qed.
End Boundary.

(* ================================================================== *)
(** ** Rates that are not numerals *)

Section NonNumeric.
Import Number Props Page Samples.

Lemma read_digits_non_digit (s : string) (acc count : Z) :
  match s with
  | String c _ => Str.is_digit c = false
  | EmptyString => True
  end ->
  read_digits s acc count = (acc, count, s).
Proof.
  destruct s as [|c s]; simpl; intros H; [reflexivity|].
  rewrite H. reflexivity.
Qed.

Lemma unsigned_decimal_none (s : string) :
  match s with
  | String c s' =>
      Str.is_digit c
      || (Ascii.eqb c "."
          && match s' with
             | String c' _ => Str.is_digit c'
             | EmptyString => false
             end)
  | EmptyString => false
  end = false ->
  unsigned_decimal s = None.
Proof.
  destruct s as [|c s']; intros H; [reflexivity|].
  apply orb_false_iff in H. destruct H as [Hc Hpoint].
  unfold unsigned_decimal.
  rewrite (read_digits_non_digit (String c s') 0 0) by exact Hc.
  destruct (Ascii.eqb_spec c ".") as [->|Hne].
  - simpl in Hpoint.
    rewrite (read_digits_non_digit s' 0 0).
    + reflexivity.
    + destruct s' as [|c' s'']; [exact I|exact Hpoint].
  - destruct c as [[] [] [] [] [] [] [] []]; try reflexivity.
    exfalso. apply Hne. reflexivity.
Qed.

Lemma unsigned_literal_nan (negative : bool) (s : string) :
  begins_numeral s = false -> unsigned_literal negative s = NaN.
Proof.
  unfold begins_numeral, unsigned_literal. intros H.
  apply orb_false_iff in H. destruct H as [Hinf Hdec].
  rewrite Hinf, (unsigned_decimal_none s Hdec). reflexivity.
Qed.

(** [parseFloat] of a string that is not numeric is NaN. *)
Lemma parseFloat_non_numeric (s : string) :
  numeric s = false -> parseFloat s = NaN.
Proof.
  unfold numeric, parseFloat.
  destruct (trim_start s) as [|c s']; [apply unsigned_literal_nan|].
  destruct c as [[] [] [] [] [] [] [] []]; apply unsigned_literal_nan.
Qed.

(** C4, as stated, fails: a record whose buying rate is "abc" does not
    make the transform step throw; the step returns the record with a NaN
    buying rate, and [getServerSideProps] reports no error. *)
Lemma garbled_rate_is_not_rejected :
  numeric (raw_buying_rate garbled) = false
  /\ formattedData (Index.format_time utc) [ItemObject garbled]
     = Normal [format_record (Index.format_time utc) garbled]
  /\ buying_rate (format_record (Index.format_time utc) garbled) = NaN
  /\ error (props (Index.getServerSideProps utc
                     (FetchResponse 200 (BodyArray [ItemObject garbled])))) = None.
Proof.
  repeat split; vm_compute; reflexivity.
Qed.

End NonNumeric.

(* ================================================================== *)
(** ** The domain of an empty dataset *)

Section EmptyDataset.
Import Number Page.

(** C5, as stated, fails: with no records and no error the component
    reports nothing; it renders the chart page with the domain
    [Infinity, -Infinity]. *)
Lemma empty_dataset_is_charted :
  Index.CurrencyExchangeGraph {| exchangeData := []; error := None |} Index.en
  = Index.ChartPage (Index.translations Index.en) [] (Infinity, NegInfinity)
  /\ forall message : string,
       Index.CurrencyExchangeGraph {| exchangeData := []; error := None |} Index.en
       <> Index.ErrorPanel message.
Proof.
  split; [vm_compute; reflexivity|].
  intros message H. vm_compute in H. discriminate H.
Qed.

(** C5 (amended): when the record sequence is empty the domain
    calculation does not throw and reports no error: [Math.min] of no
    arguments is +Infinity and [Math.max] of none is -Infinity, so the
    domain is [Infinity, -Infinity]; an empty upstream array reaches the
    component with a null error, and the component renders the chart page
    with that domain. *)
Theorem empty_dataset_domain :
  forall (T : Type) (format_time : string -> T),
    minRate (@nil (ExchangeRateData T)) = Infinity
    /\ maxRate (@nil (ExchangeRateData T)) = NegInfinity
    /\ getServerSideProps format_time (FetchResponse 200 (BodyArray []))
       = {| props := {| exchangeData := []; error := None |}; console := [] |}
    /\ forall language : Index.Language,
         Index.CurrencyExchangeGraph {| exchangeData := []; error := None |} language
         = Index.ChartPage (Index.translations language) [] (Infinity, NegInfinity).
Proof.
  intros T format_time. split; [reflexivity|]. split; [reflexivity|].
  split; [reflexivity|]. intros language. reflexivity.
Qed.
End EmptyDataset.

(* ================================================================== *)
(** ** Rounding: what [binary_round_aux] computes *)

Section Rounding.
Import Number Props.

Local Abbreviation fexp := (SpecFloat.fexp prec emax).

Lemma fexp_unfold (e : Z) : fexp e = Z.max (e - 53) (-1074).
Proof. reflexivity. Qed.

Lemma pow2_pos (k : Z) : 0 <= k -> 0 < 2 ^ k.
Proof. intros. apply Z.pow_pos_nonneg; lia. Qed.

Lemma pow2_succ (k : Z) : 0 <= k -> 2 ^ (k + 1) = 2 * 2 ^ k.
Proof. intros. rewrite Z.pow_add_r by lia. lia. Qed.

Lemma pow2_split (a b : Z) : 0 <= a <= b -> 2 ^ b = 2 ^ a * 2 ^ (b - a).
Proof.
  intros. rewrite <- Z.pow_add_r by lia. f_equal. lia.
Qed.

Lemma pow2_le (a b : Z) : 0 <= a <= b -> 2 ^ a <= 2 ^ b.
Proof. intros. apply Z.pow_le_mono_r; lia. Qed.

Lemma pow2_lt (a b : Z) : 0 <= a < b -> 2 ^ a < 2 ^ b.
Proof. intros. apply Z.pow_lt_mono_r; lia. Qed.

Lemma iter_pos_nat {A : Type} (f : A -> A) (p : positive) (x : A) :
  iter_pos f p x = Nat.iter (Pos.to_nat p) f x.
Proof.
  revert x. induction p as [p IH|p IH|]; intros x; cbn [iter_pos].
  - rewrite !IH, Pos2Nat.inj_xI, Nat.iter_succ_r.
    replace (2 * Pos.to_nat p)%nat with (Pos.to_nat p + Pos.to_nat p)%nat by lia.
    rewrite Nat.iter_add. reflexivity.
  - rewrite !IH, Pos2Nat.inj_xO.
    replace (2 * Pos.to_nat p)%nat with (Pos.to_nat p + Pos.to_nat p)%nat by lia.
    rewrite Nat.iter_add. reflexivity.
  - reflexivity.
Qed.

(** The number of binary digits of a positive integer. *)
Lemma digits2_bounds (p : positive) :
  2 ^ (Zpos (digits2_pos p) - 1) <= Zpos p < 2 ^ Zpos (digits2_pos p).
Proof.
  induction p as [p IH|p IH|]; simpl digits2_pos.
  - rewrite Pos2Z.inj_succ.
    replace (Z.succ (Zpos (digits2_pos p)) - 1) with ((Zpos (digits2_pos p) - 1) + 1) by lia.
    replace (Z.succ (Zpos (digits2_pos p))) with (Zpos (digits2_pos p) + 1) by lia.
    rewrite !pow2_succ by lia. lia.
  - rewrite Pos2Z.inj_succ.
    replace (Z.succ (Zpos (digits2_pos p)) - 1) with ((Zpos (digits2_pos p) - 1) + 1) by lia.
    replace (Z.succ (Zpos (digits2_pos p))) with (Zpos (digits2_pos p) + 1) by lia.
    rewrite !pow2_succ by lia. lia.
  - simpl. lia.
Qed.

Lemma digits2_unique (p : positive) (d : Z) :
  2 ^ (d - 1) <= Zpos p < 2 ^ d -> 1 <= d -> Zpos (digits2_pos p) = d.
Proof.
  intros [Hlo Hhi] Hd.
  pose proof (digits2_bounds p) as [Blo Bhi].
  destruct (Z.lt_trichotomy (Zpos (digits2_pos p)) d) as [Hlt|[Heq|Hgt]].
  - pose proof (pow2_le (Zpos (digits2_pos p)) (d - 1)). lia.
  - exact Heq.
  - pose proof (pow2_le d (Zpos (digits2_pos p) - 1)). lia.
Qed.

Lemma shr_1_shifted (k m0 : Z) (mrs : shr_record) :
  0 <= k -> shifted k m0 mrs -> shifted (k + 1) m0 (shr_1 mrs).
Proof.
  intros Hk (Hm & Hq & Hflag). destruct mrs as [m r s]. simpl in *.
  pose proof (pow2_pos k Hk) as Hpos.
  unfold shifted. rewrite pow2_succ by exact Hk.
  set (X := 2 ^ k) in *.
  destruct m as [|[p|p|]|p]; cbn [shr_1 shr_m shr_r shr_s orb]; [| | | |lia].
  - split; [lia|]. split; [lia|]. intros H. specialize (Hflag H). lia.
  - rewrite Pos2Z.inj_xI in *. split; [lia|]. split; [nia|]. intros _. nia.
  - rewrite Pos2Z.inj_xO in *. split; [lia|]. split; [nia|]. intros H. specialize (Hflag H). nia.
  - split; [lia|]. split; [nia|]. intros _. nia.
Qed.

Lemma shr_iter_shifted (n : nat) (m0 : Z) :
  0 <= m0 ->
  shifted (Z.of_nat n) m0
          (Nat.iter n shr_1 {| shr_m := m0; shr_r := false; shr_s := false |}).
Proof.
  intros Hm0. induction n as [|n IH].
  - simpl. unfold shifted. simpl. split; [lia|]. split; [lia|]. discriminate.
  - rewrite Nat2Z.inj_succ. simpl Nat.iter.
    replace (Z.succ (Z.of_nat n)) with (Z.of_nat n + 1) by lia.
    apply shr_1_shifted; [lia|exact IH].
Qed.

Lemma round_nearest_even_near (k m0 : Z) (mrs : shr_record) :
  0 <= k -> shifted k m0 mrs ->
  near k m0 (round_nearest_even (shr_m mrs) (loc_of_shr_record mrs)).
Proof.
  intros Hk (Hm & Hq & Hflag). destruct mrs as [m r s]. simpl in *.
  pose proof (pow2_pos k Hk) as Hpos.
  unfold near. set (X := 2 ^ k) in *.
  destruct r, s; simpl in *.
  - specialize (Hflag eq_refl). split; [lia|]. split; nia.
  - specialize (Hflag eq_refl). destruct (Z.even m); (split; [lia|]; split; nia).
  - specialize (Hflag eq_refl). split; [lia|]. split; nia.
  - split; [lia|]. split; nia.
Qed.


Lemma shr_1_halved (k m0 : Z) (mrs : shr_record) :
  0 <= k -> 0 <= shr_m mrs -> halved k m0 mrs -> halved (k + 1) m0 (shr_1 mrs).
Proof.
  intros Hk Hm (t & Heq & Ht & Hs). destruct mrs as [m r s]. cbn [shr_m shr_r shr_s] in *.
  pose proof (pow2_pos k Hk) as Hpos.
  unfold halved. rewrite pow2_succ by exact Hk.
  set (X := 2 ^ k) in *.
  exists (Z.b2z r * X + t).
  assert (Hflag : r || s = true <-> 0 < Z.b2z r * X + t).
  { destruct r; cbn [orb Z.b2z].
    - split; [intros _; lia|reflexivity].
    - rewrite Hs. split; intros H; lia. }
  destruct m as [|[p|p|]|p]; cbn [shr_1 shr_m shr_r shr_s Z.b2z]; [| | | |lia].
  - split; [destruct r; cbn [Z.b2z] in *; lia|]. split; [destruct r; cbn [Z.b2z]; lia|exact Hflag].
  - rewrite Pos2Z.inj_xI in Heq.
    split; [destruct r; cbn [Z.b2z] in *; lia|]. split; [destruct r; cbn [Z.b2z]; lia|exact Hflag].
  - rewrite Pos2Z.inj_xO in Heq.
    split; [destruct r; cbn [Z.b2z] in *; lia|]. split; [destruct r; cbn [Z.b2z]; lia|exact Hflag].
  - split; [destruct r; cbn [Z.b2z] in *; lia|]. split; [destruct r; cbn [Z.b2z]; lia|exact Hflag].
Qed.

Lemma shr_iter_halved (n : nat) (m0 : Z) :
  0 <= m0 ->
  halved (Z.of_nat n) m0
         (Nat.iter n shr_1 {| shr_m := m0; shr_r := false; shr_s := false |}).
Proof.
  intros Hm0. induction n as [|n IH].
  - exists 0. cbn. split; [lia|]. split; [lia|]. split; [discriminate|lia].
  - rewrite Nat2Z.inj_succ. simpl Nat.iter.
    replace (Z.succ (Z.of_nat n)) with (Z.of_nat n + 1) by lia.
    apply shr_1_halved; [lia| |exact IH].
    destruct (shr_iter_shifted n m0 Hm0) as (H & _). exact H.
Qed.

Lemma round_nearest_even_nearest (k m0 : Z) (mrs : shr_record) :
  0 <= k -> halved k m0 mrs ->
  nearest k m0 (round_nearest_even (shr_m mrs) (loc_of_shr_record mrs)).
Proof.
  intros Hk (t & Heq & Ht & Hs). destruct mrs as [m r s]. cbn [shr_m shr_r shr_s] in *.
  pose proof (pow2_pos k Hk) as Hpos.
  unfold nearest. set (X := 2 ^ k) in *.
  destruct r, s; cbn [loc_of_shr_record round_nearest_even Z.b2z] in *.
  - assert (0 < t) by (apply Hs; reflexivity). lia.
  - assert (t = 0).
    { destruct (Z.eq_dec t 0) as [E|E]; [exact E|].
      assert (H : false = true) by (apply Hs; lia). discriminate H. }
    destruct (Z.even m); lia.
  - assert (0 < t) by (apply Hs; reflexivity). lia.
  - assert (t = 0).
    { destruct (Z.eq_dec t 0) as [E|E]; [exact E|].
      assert (H : false = true) by (apply Hs; lia). discriminate H. }
    lia.
Qed.
Lemma shr_nonpos (mrs : shr_record) (e n : Z) : n <= 0 -> shr mrs e n = (mrs, e).
Proof. destruct n; [reflexivity|lia|reflexivity]. Qed.

Lemma renormalise (s : bool) (m1 e1 : Z) :
  0 <= m1 <= 2 ^ 53 -> -1074 <= e1 ->
  (let '(mrs, e) := shr_fexp prec emax m1 e1 loc_Exact in
   match shr_m mrs with
   | Z0 => S754_zero s
   | Zpos m => if e <=? emax - prec then S754_finite s m e else S754_infinity s
   | Zneg _ => S754_nan
   end) = rounded s m1 e1.
Proof.
  intros Hm He. unfold rounded, shr_fexp.
  destruct (Z.eqb_spec m1 0) as [->|Hnz].
  - cbn [Zdigits2 shr_record_of_loc]. rewrite shr_nonpos.
    + reflexivity.
    + rewrite fexp_unfold. lia.
  - destruct (Z.eqb_spec m1 (2 ^ 53)) as [->|Hne].
    + replace (fexp (Zdigits2 (2 ^ 53) + e1) - e1) with 1.
      * reflexivity.
      * change (Zdigits2 (2 ^ 53)) with 54. rewrite fexp_unfold. lia.
    + destruct m1 as [|p|p]; [lia| |lia].
      cbn [Zdigits2 shr_record_of_loc]. rewrite shr_nonpos.
      * reflexivity.
      * pose proof (digits2_bounds p) as [Blo _].
        assert (Zpos (digits2_pos p) <= 53).
        { destruct (Z.le_gt_cases (Zpos (digits2_pos p)) 53) as [H|H]; [exact H|].
          pose proof (pow2_le 53 (Zpos (digits2_pos p) - 1)). lia. }
        rewrite fexp_unfold. lia.
Qed.

Lemma binary_round_aux_nearest (s : bool) (p : positive) (E : Z) :
  E <= fexp (Zpos (digits2_pos p) + E) ->
  exists m1,
    near (fexp (Zpos (digits2_pos p) + E) - E) (Zpos p) m1
    /\ nearest (fexp (Zpos (digits2_pos p) + E) - E) (Zpos p) m1
    /\ m1 <= 2 ^ 53
    /\ (0 < m1 < 2 ^ 53 ->
        canonical_mantissa prec emax (Z.to_pos m1) (fexp (Zpos (digits2_pos p) + E)) = true)
    /\ binary_round_aux prec emax s (Zpos p) E loc_Exact
       = rounded s m1 (fexp (Zpos (digits2_pos p) + E)).
Proof.
  intros Hn.
  pose proof (digits2_bounds p) as [Blo Bhi].
  set (d := Zpos (digits2_pos p)) in *.
  set (e1 := fexp (d + E)) in *.
  assert (He1 : -1074 <= e1) by (unfold e1; rewrite fexp_unfold; lia).
  assert (Hd : d - 53 <= e1 - E) by (unfold e1; rewrite fexp_unfold; lia).
  assert (Hsh : exists mrs, shr_fexp prec emax (Zpos p) E loc_Exact = (mrs, e1)
                            /\ shifted (e1 - E) (Zpos p) mrs
                            /\ halved (e1 - E) (Zpos p) mrs).
  { unfold shr_fexp. cbn [Zdigits2 shr_record_of_loc]. fold d. fold e1.
    destruct (e1 - E) as [|k|k] eqn:En; [| |lia].
    - exists {| shr_m := Zpos p; shr_r := false; shr_s := false |}.
      split; [cbn [shr]; f_equal; lia|].
      split; [apply (shr_iter_shifted 0); lia|apply (shr_iter_halved 0); lia].
    - exists (iter_pos shr_1 k {| shr_m := Zpos p; shr_r := false; shr_s := false |}).
      split; [cbn [shr]; f_equal; lia|].
      rewrite iter_pos_nat, <- (positive_nat_Z k).
      split; [apply shr_iter_shifted; lia|apply shr_iter_halved; lia]. }
  destruct Hsh as (mrs & Hshr & Hshifted & Hhalved).
  assert (Hk : 0 <= e1 - E) by lia.
  pose proof (round_nearest_even_near _ _ _ Hk Hshifted) as Hnear.
  pose proof (round_nearest_even_nearest _ _ _ Hk Hhalved) as Hnearest.
  set (m1 := round_nearest_even (shr_m mrs) (loc_of_shr_record mrs)) in *.
  pose proof (pow2_pos (e1 - E) ltac:(lia)) as Hpos.
  assert (Hle : m1 <= 2 ^ 53).
  { destruct Hnear as (_ & _ & Hup).
    assert (2 ^ d <= 2 ^ (e1 - E) * 2 ^ 53).
    { rewrite <- Z.pow_add_r by lia. apply pow2_le. lia. }
    nia. }
  exists m1. split; [exact Hnear|]. split; [exact Hnearest|]. split; [exact Hle|]. split.
  - intros [Hgt Hlt]. unfold canonical_mantissa. apply Z.eqb_eq.
    destruct m1 as [|q|q] eqn:Em1; [lia| |lia]. cbn [Z.to_pos].
    pose proof (digits2_bounds q) as [Qlo Qhi].
    assert (Hq53 : Zpos (digits2_pos q) <= 53).
    { destruct (Z.le_gt_cases (Zpos (digits2_pos q)) 53) as [H|H]; [exact H|].
      pose proof (pow2_le 53 (Zpos (digits2_pos q) - 1)). lia. }
    destruct (Z.eq_dec e1 (-1074)) as [Hmin|Hnorm].
    + rewrite fexp_unfold. lia.
    + assert (Hshift : e1 - E = d - 53) by (unfold e1 in *; rewrite fexp_unfold in *; lia).
      assert (Hbig : 2 ^ 52 <= Zpos q).
      { destruct Hnear as (_ & Hlow & _).
        assert (2 ^ (d - 1) = 2 ^ (e1 - E) * 2 ^ 52).
        { rewrite <- Z.pow_add_r by lia. f_equal. lia. }
        nia. }
      rewrite (digits2_unique q 53) by (change (53 - 1) with 52; lia).
      rewrite fexp_unfold. lia.
  - unfold binary_round_aux. rewrite Hshr. fold m1.
    apply renormalise; [destruct Hnear; lia|exact He1].
Qed.

Lemma binary_round_aux_exact (s : bool) (p : positive) (E : Z) :
  E <= fexp (Zpos (digits2_pos p) + E) ->
  exists m1,
    near (fexp (Zpos (digits2_pos p) + E) - E) (Zpos p) m1
    /\ m1 <= 2 ^ 53
    /\ (0 < m1 < 2 ^ 53 ->
        canonical_mantissa prec emax (Z.to_pos m1) (fexp (Zpos (digits2_pos p) + E)) = true)
    /\ binary_round_aux prec emax s (Zpos p) E loc_Exact
       = rounded s m1 (fexp (Zpos (digits2_pos p) + E)).
Proof.
  intros Hn.
  destruct (binary_round_aux_nearest s p E Hn) as (m1 & Hnear & _ & Hrest).
  exists m1. split; [exact Hnear|exact Hrest].
Qed.

Lemma bounded_inv (m : positive) (e : Z) :
  bounded prec emax m e = true ->
  fexp (Zpos (digits2_pos m) + e) = e /\ e <= 971.
Proof.
  unfold bounded, canonical_mantissa. intros H.
  apply andb_true_iff in H. destruct H as [H1 H2].
  apply Z.eqb_eq in H1. apply Z.leb_le in H2. split; [exact H1|exact H2].
Qed.

Lemma bounded_intro (m : positive) (e : Z) :
  canonical_mantissa prec emax m e = true -> e <= 971 -> bounded prec emax m e = true.
Proof.
  intros H1 H2. unfold bounded. rewrite H1. apply Z.leb_le. exact H2.
Qed.

(** Facts about a valid mantissa and exponent. *)
Lemma bounded_range (m : positive) (e : Z) :
  bounded prec emax m e = true ->
  -1074 <= e <= 971 /\ Zpos m < 2 ^ 53 /\ Zpos (digits2_pos m) <= 53
  /\ (-1074 < e -> Zpos (digits2_pos m) = 53 /\ 2 ^ 52 <= Zpos m).
Proof.
  intros H. apply bounded_inv in H. destruct H as [Hc He].
  rewrite fexp_unfold in Hc.
  pose proof (digits2_bounds m) as [Blo Bhi].
  assert (Hd : Zpos (digits2_pos m) <= 53) by lia.
  split; [lia|]. split.
  - pose proof (pow2_le (Zpos (digits2_pos m)) 53). lia.
  - split; [exact Hd|]. intros Hn.
    assert (Zpos (digits2_pos m) = 53) by lia.
    split; [assumption|]. replace 52 with (Zpos (digits2_pos m) - 1) by lia. exact Blo.
Qed.

Lemma rounded_value (m1 e1 : Z) :
  0 <= m1 <= 2 ^ 53 -> -1074 <= e1 ->
  (0 < m1 < 2 ^ 53 -> canonical_mantissa prec emax (Z.to_pos m1) e1 = true) ->
  (rounded false m1 e1 = Infinity /\ 2 ^ 53 * 2 ^ 2045 <= m1 * 2 ^ (e1 + 1074))
  \/ (nonneg_finite (rounded false m1 e1) = true
      /\ ulps (rounded false m1 e1) = m1 * 2 ^ (e1 + 1074)).
Proof.
  intros Hm He Hcanon. unfold rounded.
  pose proof (pow2_pos (e1 + 1074) ltac:(lia)) as Hpos.
  destruct (Z.eqb_spec m1 0) as [->|Hnz]; [right; split; reflexivity|].
  destruct (Z.eqb_spec m1 (2 ^ 53)) as [->|Hne].
  - destruct (Z.leb_spec (e1 + 1) 971) as [Hfit|Hover].
    + right. split.
      * cbn [nonneg_finite]. apply bounded_intro; [|exact Hfit].
        unfold canonical_mantissa. apply Z.eqb_eq.
        change (Zpos (digits2_pos (Z.to_pos (2 ^ 52)))) with 53.
        rewrite fexp_unfold. lia.
      * cbn [ulps cond_Zopp]. change (Zpos (Z.to_pos (2 ^ 52))) with (2 ^ 52).
        replace (e1 + 1 + 1074) with ((e1 + 1074) + 1) by lia.
        rewrite pow2_succ by lia. change (2 ^ 53) with (2 * 2 ^ 52). lia.
    + left. split; [reflexivity|].
      pose proof (pow2_le 2045 (e1 + 1074) ltac:(lia)).
      apply Z.mul_le_mono_nonneg_l; [lia|assumption].
  - assert (Hin : 0 < m1 < 2 ^ 53) by lia. specialize (Hcanon Hin).
    destruct (Z.leb_spec e1 971) as [Hfit|Hover].
    + right. split.
      * cbn [nonneg_finite]. apply bounded_intro; assumption.
      * cbn [ulps cond_Zopp]. rewrite Z2Pos.id by lia. reflexivity.
    + left. split; [reflexivity|].
      unfold canonical_mantissa in Hcanon. apply Z.eqb_eq in Hcanon.
      rewrite fexp_unfold in Hcanon.
      pose proof (digits2_bounds (Z.to_pos m1)) as [Blo _].
      rewrite Z2Pos.id in Blo by lia.
      replace (Zpos (digits2_pos (Z.to_pos m1)) - 1) with 52 in Blo by lia.
      pose proof (pow2_le 2046 (e1 + 1074) ltac:(lia)).
      change (2 ^ 2046) with (2 * 2 ^ 2045) in *.
      change (2 ^ 53) with (2 * 2 ^ 52).
      pose proof (pow2_pos 2045 ltac:(lia)).
      nia.
Qed.

Lemma digits2_mul (p q : positive) :
  Zpos (digits2_pos p) + Zpos (digits2_pos q) - 1 <= Zpos (digits2_pos (p * q))
  <= Zpos (digits2_pos p) + Zpos (digits2_pos q).
Proof.
  pose proof (digits2_bounds p) as [Plo Phi].
  pose proof (digits2_bounds q) as [Qlo Qhi].
  pose proof (digits2_bounds (p * q)) as [Rlo Rhi].
  rewrite Pos2Z.inj_mul in Rlo, Rhi.
  set (dp := Zpos (digits2_pos p)) in *.
  set (dq := Zpos (digits2_pos q)) in *.
  set (dr := Zpos (digits2_pos (p * q))) in *.
  assert (1 <= dp) by (unfold dp; lia).
  assert (1 <= dq) by (unfold dq; lia).
  assert (1 <= dr) by (unfold dr; lia).
  pose proof (pow2_pos (dp - 1) ltac:(lia)).
  pose proof (pow2_pos (dq - 1) ltac:(lia)).
  split.
  - destruct (Z.le_gt_cases (dp + dq - 1) dr) as [H'|H']; [exact H'|exfalso].
    pose proof (pow2_le dr ((dp - 1) + (dq - 1)) ltac:(lia)) as Hp.
    rewrite Z.pow_add_r in Hp by lia. nia.
  - destruct (Z.le_gt_cases dr (dp + dq)) as [H'|H']; [exact H'|exfalso].
    pose proof (pow2_le (dp + dq) (dr - 1) ltac:(lia)) as Hp.
    rewrite Z.pow_add_r in Hp by lia. nia.
Qed.

Lemma c998_value : of_decimal false 998 (-3) = S754_finite false 8989184856231510 (-53).
Proof. vm_compute. reflexivity. Qed.

Lemma c1002_value : of_decimal false 1002 (-3) = S754_finite false 4512606826625237 (-52).
Proof. vm_compute. reflexivity. Qed.

(** Multiplying a positive finite Number by 0.998 does not increase it, and
    decreases it once it is normal. *)
Lemma mul_998_le (mx : positive) (ex : Z) :
  bounded prec emax mx ex = true ->
  nonneg_finite (mul (S754_finite false mx ex) (of_decimal false 998 (-3))) = true
  /\ ulps (mul (S754_finite false mx ex) (of_decimal false 998 (-3)))
     <= Zpos mx * 2 ^ (ex + 1074)
  /\ (2 ^ 52 <= Zpos mx ->
      ulps (mul (S754_finite false mx ex) (of_decimal false 998 (-3)))
      < Zpos mx * 2 ^ (ex + 1074)).
Proof.
  intros Hx. rewrite c998_value.
  pose proof (bounded_inv _ _ Hx) as [Hcx _].
  pose proof (bounded_range _ _ Hx) as (Hex & Hmx & Hdx & _).
  pose proof (digits2_mul mx 8989184856231510) as [Dlo Dhi].
  change (Zpos (digits2_pos 8989184856231510)) with 53 in Dlo, Dhi.
  rewrite fexp_unfold in Hcx.
  assert (Hpre : ex + -53 <= fexp (Zpos (digits2_pos (mx * 8989184856231510)) + (ex + -53))).
  { rewrite fexp_unfold. lia. }
  destruct (binary_round_aux_exact false _ _ Hpre) as (m1 & Hnear & Hle & Hcanon & Hres).
  change (mul (S754_finite false mx ex) (S754_finite false 8989184856231510 (-53)))
    with (binary_round_aux prec emax false (Zpos (mx * 8989184856231510)) (ex + -53) loc_Exact).
  rewrite Hres.
  set (e1 := fexp (Zpos (digits2_pos (mx * 8989184856231510)) + (ex + -53))) in *.
  assert (He1 : -1074 <= e1 <= ex) by (unfold e1; rewrite fexp_unfold; lia).
  destruct Hnear as (Hm1 & _ & Hup).
  rewrite Pos2Z.inj_mul in Hup.
  set (X := 2 ^ (e1 - (ex + -53))) in *.
  set (Y := 2 ^ (ex - e1)).
  assert (HX : 0 < X) by (apply pow2_pos; lia).
  assert (HY : 0 < Y) by (apply pow2_pos; lia).
  assert (HXY : X * Y = 2 ^ 53).
  { unfold X, Y. rewrite <- Z.pow_add_r by lia. f_equal. lia. }
  assert (HX53 : X <= 2 ^ 53).
  { unfold X. apply pow2_le. lia. }
  assert (Hsplit : 2 ^ (ex + 1074) = Y * 2 ^ (e1 + 1074)).
  { unfold Y. rewrite <- Z.pow_add_r by lia. f_equal. lia. }
  pose proof (pow2_pos (e1 + 1074) ltac:(lia)) as HU.
  assert (Hm1le : m1 <= Zpos mx * Y).
  { destruct (Z.le_gt_cases m1 (Zpos mx * Y)) as [H|H]; [exact H|exfalso].
    assert (Zpos mx * (X * Y) + X <= m1 * X) by nia.
    rewrite HXY in *. lia. }
  assert (Hm1lt : 2 ^ 52 <= Zpos mx -> m1 < Zpos mx * Y).
  { intros Hnormal.
    destruct (Z.lt_ge_cases m1 (Zpos mx * Y)) as [H|H]; [exact H|exfalso].
    assert (Zpos mx * (X * Y) <= m1 * X) by nia.
    rewrite HXY in *. lia. }
  destruct (rounded_value m1 e1 ltac:(lia) ltac:(lia) Hcanon) as [[_ Hbig]|[Hfin Hval]].
  - exfalso.
    assert (m1 * 2 ^ (e1 + 1074) <= Zpos mx * 2 ^ (ex + 1074)) by (rewrite Hsplit; nia).
    pose proof (pow2_le (ex + 1074) 2045 ltac:(lia)).
    pose proof (pow2_pos (ex + 1074) ltac:(lia)).
    nia.
  - split; [exact Hfin|]. rewrite Hval, Hsplit. split; [nia|].
    intros Hnormal. specialize (Hm1lt Hnormal). nia.
Qed.

(** Multiplying a positive finite Number by 1.002 does not decrease it. *)
Lemma mul_1002_ge (mx : positive) (ex : Z) :
  bounded prec emax mx ex = true ->
  mul (S754_finite false mx ex) (of_decimal false 1002 (-3)) = Infinity
  \/ (nonneg_finite (mul (S754_finite false mx ex) (of_decimal false 1002 (-3))) = true
      /\ Zpos mx * 2 ^ (ex + 1074)
         <= ulps (mul (S754_finite false mx ex) (of_decimal false 1002 (-3)))).
Proof.
  intros Hx. rewrite c1002_value.
  pose proof (bounded_inv _ _ Hx) as [Hcx _].
  pose proof (bounded_range _ _ Hx) as (Hex & Hmx & Hdx & _).
  pose proof (digits2_mul mx 4512606826625237) as [Dlo Dhi].
  pose proof (digits2_bounds (mx * 4512606826625237)) as [Plo _].
  change (Zpos (digits2_pos 4512606826625237)) with 53 in Dlo, Dhi.
  rewrite fexp_unfold in Hcx.
  assert (Hpre : ex + -52 <= fexp (Zpos (digits2_pos (mx * 4512606826625237)) + (ex + -52))).
  { rewrite fexp_unfold. lia. }
  destruct (binary_round_aux_exact false _ _ Hpre) as (m1 & Hnear & Hle & Hcanon & Hres).
  change (mul (S754_finite false mx ex) (S754_finite false 4512606826625237 (-52)))
    with (binary_round_aux prec emax false (Zpos (mx * 4512606826625237)) (ex + -52) loc_Exact).
  rewrite Hres.
  set (d := Zpos (digits2_pos (mx * 4512606826625237))) in *.
  set (e1 := fexp (d + (ex + -52))) in *.
  assert (He1 : -1074 <= e1 <= ex + 1) by (unfold e1; rewrite fexp_unfold; lia).
  destruct Hnear as (Hm1 & Hlow & _).
  set (X := 2 ^ (e1 - (ex + -52))) in *.
  assert (HX : 0 < X) by (apply pow2_pos; lia).
  pose proof (pow2_pos (ex + 1074) ltac:(lia)) as HU.
  destruct (rounded_value m1 e1 ltac:(lia) ltac:(lia) Hcanon) as [[Hinf _]|[Hfin Hval]];
    [left; exact Hinf|right].
  split; [exact Hfin|]. rewrite Hval.
  destruct (Z.le_gt_cases e1 ex) as [Hsame|Hup].
  - set (Y := 2 ^ (ex - e1)).
    assert (HY : 0 < Y) by (apply pow2_pos; lia).
    assert (HXY : X * Y = 2 ^ 52).
    { unfold X, Y. rewrite <- Z.pow_add_r by lia. f_equal. lia. }
    assert (Hsplit : 2 ^ (ex + 1074) = Y * 2 ^ (e1 + 1074)).
    { unfold Y. rewrite <- Z.pow_add_r by lia. f_equal. lia. }
    pose proof (pow2_pos (e1 + 1074) ltac:(lia)).
    assert (Hm1ge : Zpos mx * Y <= m1).
    { destruct (Z.le_gt_cases (Zpos mx * Y) m1) as [H'|H']; [exact H'|exfalso].
      rewrite Pos2Z.inj_mul in Hlow.
      assert ((m1 + 1) * X <= Zpos mx * (X * Y)) by nia.
      rewrite HXY in *. lia. }
    rewrite Hsplit. nia.
  - assert (He : e1 = ex + 1) by lia.
    assert (Hd : d = 106) by (unfold e1 in He; rewrite fexp_unfold in He; lia).
    assert (HX53 : X = 2 ^ 53) by (unfold X; f_equal; lia).
    rewrite Hd in Plo. change (106 - 1) with 105 in Plo.
    change (2 ^ 105) with (2 ^ 52 * 2 ^ 53) in Plo.
    rewrite HX53 in Hlow.
    assert (2 ^ 52 <= m1) by nia.
    replace (e1 + 1074) with ((ex + 1074) + 1) by lia.
    rewrite pow2_succ by lia. nia.
Qed.




(** Among valid positive Numbers the one with the smaller exponent is the
    smaller one. *)
Lemma exponent_order (m1 m2 : positive) (e1 e2 : Z) :
  bounded prec emax m1 e1 = true -> bounded prec emax m2 e2 = true ->
  e1 < e2 -> Zpos m1 * 2 ^ (e1 + 1074) < Zpos m2 * 2 ^ (e2 + 1074).
Proof.
  intros H1 H2 Hlt.
  pose proof (bounded_range _ _ H1) as (He1 & Hm1 & _ & _).
  pose proof (bounded_range _ _ H2) as (He2 & _ & _ & Hn2).
  destruct (Hn2 ltac:(lia)) as [_ Hm2].
  pose proof (pow2_pos (e1 + 1074) ltac:(lia)) as Hpos.
  pose proof (pow2_le ((e1 + 1074) + 1) (e2 + 1074) ltac:(lia)) as Hmono.
  rewrite pow2_succ in Hmono by lia.
  change (2 ^ 53) with (2 * 2 ^ 52) in Hm1.
  nia.
Qed.

Lemma ltb_of_ulps (x y : number) :
  nonneg_finite x = true -> nonneg_finite y = true ->
  ulps x < ulps y -> ltb x y = true.
Proof.
  intros Hx Hy Hlt.
  destruct x as [[|]| | |[|] m1 e1]; try discriminate Hx;
    destruct y as [[|]| | |[|] m2 e2]; try discriminate Hy;
    cbn [ulps cond_Zopp nonneg_finite] in *.
  - lia.
  - reflexivity.
  - pose proof (bounded_range _ _ Hx) as (He1 & _).
    pose proof (pow2_pos (e1 + 1074) ltac:(lia)). nia.
  - unfold ltb, SFltb, SFcompare.
    destruct (Z.compare_spec e1 e2) as [Heq|Hlt'|Hgt].
    + subst e2. pose proof (bounded_range _ _ Hx) as (He1 & _).
      pose proof (pow2_pos (e1 + 1074) ltac:(lia)).
      assert (Hm : (m1 < m2)%positive) by nia.
      change (Pos.compare_cont Eq m1 m2) with (Pos.compare m1 m2).
      rewrite (proj2 (Pos.compare_lt_iff m1 m2) Hm). reflexivity.
    + reflexivity.
    + pose proof (exponent_order _ _ _ _ Hy Hx Hgt). lia.
Qed.

Lemma ltb_infinity (x : number) : nonneg_finite x = true -> ltb x Infinity = true.
Proof.
  destruct x as [[|]| | |[|] m e]; intros H; try discriminate H; reflexivity.
Qed.

(** The Number of a positive integer of at most 54 bits' worth,
    [1 .. 2^53]: it is exact. *)
Lemma normalize_integer (q : Z) (szero : bool) :
  0 < q <= 2 ^ 53 ->
  nonneg_finite (binary_normalize prec emax q 0 szero) = true
  /\ ulps (binary_normalize prec emax q 0 szero) = q * 2 ^ 1074.
Proof.
  intros Hq. destruct q as [|p|p]; [lia| |lia].
  cbn [binary_normalize]. unfold binary_round.
  pose proof (digits2_bounds p) as [Plo Phi].
  set (d := Zpos (digits2_pos p)) in *.
  assert (Hd1 : 1 <= d) by (unfold d; lia).
  assert (Hd : d <= 54).
  { destruct (Z.le_gt_cases d 54) as [H|H]; [exact H|].
    pose proof (pow2_le 54 (d - 1) ltac:(lia)). lia. }
  replace (d + 0) with d by lia.
  assert (Hf : fexp d = d - 53) by (rewrite fexp_unfold; lia).
  assert (Hal : exists mz ez,
             shl_align p 0 (fexp d) = (mz, ez)
             /\ Zpos mz * 2 ^ (ez + 1074) = Zpos p * 2 ^ 1074
             /\ -1074 < ez <= 0
             /\ (fexp (Zpos (digits2_pos mz) + ez) = ez
                 \/ (Zpos mz = 2 ^ 53 /\ ez = 0))).
  { unfold shl_align. rewrite Hf.
    destruct (d - 53 - 0) as [|k|k] eqn:Ek.
    - exists p, 0. split; [reflexivity|]. split; [reflexivity|].
      split; [lia|]. left. fold d. rewrite fexp_unfold. lia.
    - exists p, 0. split; [reflexivity|]. split; [reflexivity|].
      split; [lia|]. right. split; [|reflexivity].
      assert (Hd54 : d = 54) by lia. rewrite Hd54 in Plo.
      change (2 ^ (54 - 1)) with (2 ^ 53) in Plo. lia.
    - exists (shift_pos k p), (d - 53). split; [reflexivity|].
      rewrite shift_pos_correct. change (Z.pow_pos 2 k) with (2 ^ Zpos k).
      assert (Hk : Zpos k = 53 - d) by lia.
      assert (Hdig : Zpos (digits2_pos (shift_pos k p)) = 53).
      { apply digits2_unique; [|lia].
        rewrite shift_pos_correct. change (Z.pow_pos 2 k) with (2 ^ Zpos k).
        rewrite Hk.
        rewrite (pow2_split (53 - d) (53 - 1)) by lia.
        rewrite (pow2_split (53 - d) 53) by lia.
        replace (53 - 1 - (53 - d)) with (d - 1) by lia.
        replace (53 - (53 - d)) with d by lia.
        pose proof (pow2_pos (53 - d) ltac:(lia)). nia. }
      split.
      + rewrite Hk. rewrite (pow2_split (53 - d) 1074) by lia.
        replace (1074 - (53 - d)) with (d - 53 + 1074) by lia. lia.
      + split; [lia|]. left. rewrite Hdig, fexp_unfold. lia. }
  destruct Hal as (mz & ez & Hal & Hval & Hez & Hshape).
  rewrite Hal.
  assert (Hdz : Zpos mz = 2 ^ 53 -> Zpos (digits2_pos mz) = 54).
  { intros Hmz. apply digits2_unique; [|lia].
    change (54 - 1) with 53. rewrite Hmz. split; [lia|reflexivity]. }
  assert (Hpre : ez <= fexp (Zpos (digits2_pos mz) + ez)).
  { destruct Hshape as [->|[Hmz ->]]; [lia|].
    rewrite (Hdz Hmz), fexp_unfold. lia. }
  destruct (binary_round_aux_exact false mz ez Hpre) as (m1 & Hnear & Hle & Hcanon & Hres).
  rewrite Hres.
  set (e1 := fexp (Zpos (digits2_pos mz) + ez)) in *.
  destruct Hnear as (Hm1 & Hlow & Hup).
  assert (Hexact : m1 * 2 ^ (e1 + 1074) = Zpos p * 2 ^ 1074 /\ -1074 <= e1).
  { destruct Hshape as [Heq|[Hmz Hez0]].
    - rewrite Heq in *. replace (ez - ez) with 0 in * by lia.
      change (2 ^ 0) with 1 in *. split; [|lia].
      replace m1 with (Zpos mz) by lia. exact Hval.
    - assert (He1 : e1 = 1).
      { unfold e1. rewrite (Hdz Hmz), Hez0, fexp_unfold. lia. }
      split; [|lia]. rewrite <- Hval.
      rewrite He1, Hez0 in *. change (2 ^ (1 - 0)) with 2 in *.
      rewrite Hmz in *. change (2 ^ 53) with (2 * 2 ^ 52) in *.
      replace m1 with (2 ^ 52) by lia.
      change (1 + 1074) with (1074 + 1). rewrite pow2_succ by lia.
      change (0 + 1074) with 1074. lia. }
  destruct Hexact as [Hexact He1].
  destruct (rounded_value m1 e1 ltac:(lia) He1 Hcanon) as [[_ Hbig]|[Hfin Hv]].
  - exfalso. rewrite Hexact in Hbig.
    pose proof (pow2_le 1074 2045 ltac:(lia)).
    pose proof (pow2_pos 1074 ltac:(lia)). nia.
  - split; [exact Hfin|]. rewrite Hv. exact Hexact.
Qed.

(** [Math.floor] and [Math.ceil] of a non-negative finite Number are the
    integers below and above it. *)
Lemma floor_spec (x : number) :
  nonneg_finite x = true ->
  nonneg_finite (Math_floor x) = true
  /\ exists k : Z,
       ulps (Math_floor x) = k * 2 ^ 1074
       /\ k * 2 ^ 1074 <= ulps x < (k + 1) * 2 ^ 1074.
Proof.
  intros Hx. pose proof (pow2_pos 1074 ltac:(lia)) as HU.
  destruct x as [[|]| | |[|] m e]; try discriminate Hx.
  - split; [reflexivity|]. exists 0. cbn [Math_floor ulps]. lia.
  - cbn [nonneg_finite] in Hx.
    pose proof (bounded_range _ _ Hx) as (He & Hm & _).
    cbn [Math_floor]. destruct (Z.leb_spec 0 e) as [Hint|Hfrac].
    + split; [exact Hx|]. exists (Zpos m * 2 ^ e). cbn [ulps cond_Zopp].
      rewrite Z.pow_add_r by lia. lia.
    + cbn [cond_Zopp]. set (D := 2 ^ (- e)).
      assert (HD : 0 < D) by (apply pow2_pos; lia).
      assert (Hsplit : 2 ^ 1074 = D * 2 ^ (e + 1074)).
      { unfold D. rewrite <- Z.pow_add_r by lia. f_equal. lia. }
      pose proof (pow2_pos (e + 1074) ltac:(lia)) as HV.
      pose proof (Z.mul_div_le (Zpos m) D HD) as Hlo.
      pose proof (Z.mul_succ_div_gt (Zpos m) D HD) as Hhi.
      pose proof (Z.div_pos (Zpos m) D ltac:(lia) HD) as Hq.
      set (q := Zpos m / D) in *.
      assert (Hbounds : q * 2 ^ 1074 <= ulps (S754_finite false m e) < (q + 1) * 2 ^ 1074).
      { cbn [ulps cond_Zopp]. rewrite Hsplit. nia. }
      destruct (Z.eq_dec q 0) as [Hz|Hnz].
      * rewrite Hz in *. split; [reflexivity|]. exists 0.
        split; [reflexivity|exact Hbounds].
      * assert (Hrange : 0 < q <= 2 ^ 53) by nia.
        destruct (normalize_integer q false Hrange) as [Hfin Hval].
        split; [exact Hfin|]. exists q. split; [exact Hval|exact Hbounds].
Qed.

Lemma ceil_spec (x : number) :
  nonneg_finite x = true ->
  nonneg_finite (Math_ceil x) = true
  /\ exists k : Z,
       ulps (Math_ceil x) = k * 2 ^ 1074
       /\ (k - 1) * 2 ^ 1074 < ulps x <= k * 2 ^ 1074.
Proof.
  intros Hx. pose proof (pow2_pos 1074 ltac:(lia)) as HU.
  destruct x as [[|]| | |[|] m e]; try discriminate Hx.
  - split; [reflexivity|]. exists 0. cbn [Math_ceil ulps]. lia.
  - cbn [nonneg_finite] in Hx.
    pose proof (bounded_range _ _ Hx) as (He & Hm & _).
    cbn [Math_ceil]. destruct (Z.leb_spec 0 e) as [Hint|Hfrac].
    + split; [exact Hx|]. exists (Zpos m * 2 ^ e). cbn [ulps cond_Zopp].
      rewrite Z.pow_add_r by lia. lia.
    + cbn [cond_Zopp negb]. set (D := 2 ^ (- e)).
      assert (HD : 0 < D) by (apply pow2_pos; lia).
      assert (HD2 : 2 <= D).
      { unfold D. change 2 with (2 ^ 1) at 1. apply pow2_le. lia. }
      assert (Hsplit : 2 ^ 1074 = D * 2 ^ (e + 1074)).
      { unfold D. rewrite <- Z.pow_add_r by lia. f_equal. lia. }
      pose proof (pow2_pos (e + 1074) ltac:(lia)) as HV.
      pose proof (Z.mul_div_le (- Zpos m) D HD) as Hlo.
      pose proof (Z.mul_succ_div_gt (- Zpos m) D HD) as Hhi.
      set (q := - (- Zpos m / D)) in *.
      replace (- Zpos m / D) with (- q) in * by (unfold q; lia).
      assert (Hbounds : (q - 1) * 2 ^ 1074 < ulps (S754_finite false m e) <= q * 2 ^ 1074).
      { cbn [ulps cond_Zopp]. rewrite Hsplit. nia. }
      assert (Hrange : 0 < q <= 2 ^ 53) by nia.
      destruct (normalize_integer q false Hrange) as [Hfin Hval].
      split; [exact Hfin|]. exists q. split; [exact Hval|exact Hbounds].
Qed.

End Rounding.

Section Extremes.
Import Number Props.

Ltac order_cases :=
  repeat match goal with
         | |- context [Z.compare ?a ?b] => destruct (Z.compare_spec a b)
         | |- context [Pos.compare_cont Eq ?a ?b] =>
             change (Pos.compare_cont Eq a b) with (Pos.compare a b);
             destruct (Pos.compare_spec a b)
         end;
  cbn [CompOpp];
  solve [split; [intros _; lia | reflexivity] | split; [discriminate | lia]].

Lemma leb_rank (x y : number) :
  is_nan x = false -> is_nan y = false ->
  (leb x y = true <-> lex_le (rank x) (rank y)).
Proof.
  intros Hx Hy. unfold leb, SFleb, SFcompare.
  destruct x as [[|]|[|]| |[|] m1 e1]; try discriminate Hx;
    destruct y as [[|]|[|]| |[|] m2 e2]; try discriminate Hy;
    cbn [rank lex_le]; order_cases.
Qed.

Lemma ltb_rank (x y : number) :
  is_nan x = false -> is_nan y = false ->
  (ltb x y = true <-> ~ lex_le (rank y) (rank x)).
Proof.
  intros Hx Hy. unfold ltb, SFltb, SFcompare.
  destruct x as [[|]|[|]| |[|] m1 e1]; try discriminate Hx;
    destruct y as [[|]|[|]| |[|] m2 e2]; try discriminate Hy;
    cbn [rank lex_le]; order_cases.
Qed.

Lemma lex_le_trans (a b c : Z * Z * Z) : lex_le a b -> lex_le b c -> lex_le a c.
Proof.
  destruct a as [[a1 a2] a3], b as [[b1 b2] b3], c as [[c1 c2] c3].
  unfold lex_le. lia.
Qed.

Lemma lex_le_total (a b : Z * Z * Z) : lex_le a b \/ lex_le b a.
Proof.
  destruct a as [[a1 a2] a3], b as [[b1 b2] b3]. unfold lex_le. lia.
Qed.

Lemma lex_le_dec (a b : Z * Z * Z) : lex_le a b \/ ~ lex_le a b.
Proof.
  destruct a as [[a1 a2] a3], b as [[b1 b2] b3]. unfold lex_le. lia.
Qed.

Lemma lex_le_refl (a : Z * Z * Z) : lex_le a a.
Proof. destruct a as [[a1 a2] a3]. unfold lex_le. lia. Qed.

(** The step of [Math.min]: the candidate that survives is below both. *)
Lemma min_from_spec (args : list number) :
  forall lowest : number,
    is_nan lowest = false ->
    (forall x, In x args -> is_nan x = false) ->
    (min_from lowest args = lowest \/ In (min_from lowest args) args)
    /\ lex_le (rank (min_from lowest args)) (rank lowest)
    /\ forall x, In x args -> lex_le (rank (min_from lowest args)) (rank x).
Proof.
  induction args as [|a args IH]; intros lowest Hlow Hargs.
  - cbn [min_from]. split; [left; reflexivity|]. split; [apply lex_le_refl|].
    intros x [].
  - assert (Ha : is_nan a = false) by (apply Hargs; left; reflexivity).
    assert (Hrest : forall x, In x args -> is_nan x = false)
      by (intros x Hx; apply Hargs; right; exact Hx).
    cbn [min_from]. rewrite Ha.
    destruct ((is_neg_zero a && is_pos_zero lowest) || ltb a lowest) eqn:Hcond.
    + destruct (IH a Ha Hrest) as (Hin & Hle & Hall).
      assert (Hal : lex_le (rank a) (rank lowest)).
      { apply orb_true_iff in Hcond. destruct Hcond as [Hzero|Hlt].
        - apply andb_true_iff in Hzero. destruct Hzero as [Hz1 Hz2].
          destruct a as [[|]| | |]; try discriminate Hz1.
          destruct lowest as [[|]| | |]; try discriminate Hz2.
          apply lex_le_refl.
        - apply (ltb_rank a lowest Ha Hlow) in Hlt.
          destruct (lex_le_total (rank a) (rank lowest)) as [H|H]; [exact H|contradiction]. }
      split; [right; destruct Hin as [->|Hin]; [left; reflexivity|right; exact Hin]|].
      split; [eapply lex_le_trans; eassumption|].
      intros x [<-|Hx]; [exact Hle|apply Hall; exact Hx].
    + destruct (IH lowest Hlow Hrest) as (Hin & Hle & Hall).
      assert (Hla : lex_le (rank lowest) (rank a)).
      { apply orb_false_iff in Hcond. destruct Hcond as [_ Hnlt].
        destruct (lex_le_dec (rank lowest) (rank a)) as [H|H]; [exact H|].
        apply (ltb_rank a lowest Ha Hlow) in H. rewrite H in Hnlt. discriminate. }
      split; [destruct Hin as [->|Hin]; [left; reflexivity|right; right; exact Hin]|].
      split; [exact Hle|].
      intros x [<-|Hx]; [eapply lex_le_trans; eassumption|apply Hall; exact Hx].
Qed.

Lemma max_from_spec (args : list number) :
  forall highest : number,
    is_nan highest = false ->
    (forall x, In x args -> is_nan x = false) ->
    (max_from highest args = highest \/ In (max_from highest args) args)
    /\ lex_le (rank highest) (rank (max_from highest args))
    /\ forall x, In x args -> lex_le (rank x) (rank (max_from highest args)).
Proof.
  induction args as [|a args IH]; intros highest Hhigh Hargs.
  - cbn [max_from]. split; [left; reflexivity|]. split; [apply lex_le_refl|].
    intros x [].
  - assert (Ha : is_nan a = false) by (apply Hargs; left; reflexivity).
    assert (Hrest : forall x, In x args -> is_nan x = false)
      by (intros x Hx; apply Hargs; right; exact Hx).
    cbn [max_from]. rewrite Ha.
    destruct ((is_pos_zero a && is_neg_zero highest) || ltb highest a) eqn:Hcond.
    + destruct (IH a Ha Hrest) as (Hin & Hle & Hall).
      assert (Hha : lex_le (rank highest) (rank a)).
      { apply orb_true_iff in Hcond. destruct Hcond as [Hzero|Hlt].
        - apply andb_true_iff in Hzero. destruct Hzero as [Hz1 Hz2].
          destruct a as [[|]| | |]; try discriminate Hz1.
          destruct highest as [[|]| | |]; try discriminate Hz2.
          apply lex_le_refl.
        - apply (ltb_rank highest a Hhigh Ha) in Hlt.
          destruct (lex_le_total (rank highest) (rank a)) as [H|H]; [exact H|contradiction]. }
      split; [right; destruct Hin as [->|Hin]; [left; reflexivity|right; exact Hin]|].
      split; [eapply lex_le_trans; eassumption|].
      intros x [<-|Hx]; [exact Hle|apply Hall; exact Hx].
    + destruct (IH highest Hhigh Hrest) as (Hin & Hle & Hall).
      assert (Hah : lex_le (rank a) (rank highest)).
      { apply orb_false_iff in Hcond. destruct Hcond as [_ Hnlt].
        destruct (lex_le_dec (rank a) (rank highest)) as [H|H]; [exact H|].
        apply (ltb_rank highest a Hhigh Ha) in H. rewrite H in Hnlt. discriminate. }
      split; [destruct Hin as [->|Hin]; [left; reflexivity|right; right; exact Hin]|].
      split; [exact Hle|].
      intros x [<-|Hx]; [eapply lex_le_trans; eassumption|apply Hall; exact Hx].
Qed.

(** [Math.min] of a non-empty list without NaN is an element of the list
    that is [<=] every element; [Math.max] one that every element is [<=]. *)
Lemma Math_min_spec (args : list number) :
  args <> [] ->
  (forall x, In x args -> is_nan x = false) ->
  In (Math_min args) args
  /\ forall x, In x args -> leb (Math_min args) x = true.
Proof.
  intros Hne Hargs.
  destruct (min_from_spec args Infinity eq_refl Hargs) as (Hin & _ & Hall).
  fold (Math_min args) in *.
  assert (Hmem : In (Math_min args) args).
  { destruct Hin as [Heq|Hin]; [|exact Hin].
    destruct args as [|a args]; [contradiction|].
    assert (Ha : is_nan a = false) by (apply Hargs; left; reflexivity).
    specialize (Hall a (or_introl eq_refl)). rewrite Heq in *.
    left. destruct a as [[|]|[|]| |[|] m e]; try discriminate Ha;
      cbn [rank lex_le Infinity] in Hall; try lia. reflexivity. }
  split; [exact Hmem|].
  intros x Hx. apply leb_rank; [apply Hargs; exact Hmem|apply Hargs; exact Hx|].
  apply Hall. exact Hx.
Qed.

Lemma Math_max_spec (args : list number) :
  args <> [] ->
  (forall x, In x args -> is_nan x = false) ->
  In (Math_max args) args
  /\ forall x, In x args -> leb x (Math_max args) = true.
Proof.
  intros Hne Hargs.
  destruct (max_from_spec args NegInfinity eq_refl Hargs) as (Hin & _ & Hall).
  fold (Math_max args) in *.
  assert (Hmem : In (Math_max args) args).
  { destruct Hin as [Heq|Hin]; [|exact Hin].
    destruct args as [|a args]; [contradiction|].
    assert (Ha : is_nan a = false) by (apply Hargs; left; reflexivity).
    specialize (Hall a (or_introl eq_refl)). rewrite Heq in *.
    left. destruct a as [[|]|[|]| |[|] m e]; try discriminate Ha;
      cbn [rank lex_le NegInfinity] in Hall; try lia. reflexivity. }
  split; [exact Hmem|].
  intros x Hx. apply leb_rank; [apply Hargs; exact Hx|apply Hargs; exact Hmem|].
  apply Hall. exact Hx.
Qed.

(** Among valid positive Numbers [<=] is the order of the values. *)
Lemma ulps_of_leb (m1 m2 : positive) (e1 e2 : Z) :
  bounded prec emax m1 e1 = true -> bounded prec emax m2 e2 = true ->
  leb (S754_finite false m1 e1) (S754_finite false m2 e2) = true ->
  Zpos m1 * 2 ^ (e1 + 1074) <= Zpos m2 * 2 ^ (e2 + 1074).
Proof.
  intros H1 H2 Hle.
  apply (leb_rank (S754_finite false m1 e1) (S754_finite false m2 e2) eq_refl eq_refl) in Hle.
  cbn [rank lex_le] in Hle.
  destruct Hle as [Hlt|[_ [Hlt|[Heq Hm]]]]; [lia| |].
  - pose proof (exponent_order _ _ _ _ H1 H2 Hlt). lia.
  - subst e2. pose proof (bounded_range _ _ H1) as (He & _).
    pose proof (pow2_pos (e1 + 1074) ltac:(lia)). nia.
Qed.
End Extremes.

(* ================================================================== *)
(** ** Numerals never parse to NaN *)

Section Numerals.
Import Number Props.

Lemma shr_1_nonneg (mrs : shr_record) : 0 <= shr_m mrs -> 0 <= shr_m (shr_1 mrs).
Proof.
  destruct mrs as [m r s]. destruct m as [|[p|p|]|p]; cbn [shr_1 shr_m]; lia.
Qed.

Lemma shr_nonneg (mrs : shr_record) (e n : Z) :
  0 <= shr_m mrs -> 0 <= shr_m (fst (shr mrs e n)).
Proof.
  intros H. destruct n as [|k|k]; cbn [shr fst]; try exact H.
  rewrite iter_pos_nat.
  induction (Pos.to_nat k) as [|j IH]; [exact H|].
  cbn [Nat.iter]. apply shr_1_nonneg. exact IH.
Qed.

Lemma shr_record_of_loc_m (m : Z) (l : location) : shr_m (shr_record_of_loc m l) = m.
Proof. destruct l as [|[| |]]; reflexivity. Qed.

Lemma round_nearest_even_nonneg (m : Z) (l : location) :
  0 <= m -> 0 <= round_nearest_even m l.
Proof.
  intros H. destruct l as [|[| |]]; cbn [round_nearest_even]; try lia.
  destruct (Z.even m); lia.
Qed.

(** Rounding a non-negative mantissa never produces NaN. *)
Lemma binary_round_aux_not_nan (s : bool) (m e : Z) (l : location) :
  0 <= m -> is_nan (binary_round_aux prec emax s m e l) = false.
Proof.
  intros Hm. unfold binary_round_aux, shr_fexp.
  pose proof (shr_nonneg (shr_record_of_loc m l) e
                (SpecFloat.fexp prec emax (Zdigits2 m + e) - e)) as H1.
  rewrite shr_record_of_loc_m in H1. specialize (H1 Hm).
  destruct (shr (shr_record_of_loc m l) e _) as [mrs1 e1]. cbn [fst] in H1.
  pose proof (round_nearest_even_nonneg _ (loc_of_shr_record mrs1) H1) as H2.
  set (m1 := round_nearest_even (shr_m mrs1) (loc_of_shr_record mrs1)) in *.
  pose proof (shr_nonneg (shr_record_of_loc m1 loc_Exact) e1
                (SpecFloat.fexp prec emax (Zdigits2 m1 + e1) - e1)) as H3.
  rewrite shr_record_of_loc_m in H3. specialize (H3 H2).
  destruct (shr (shr_record_of_loc m1 loc_Exact) e1 _) as [mrs2 e2]. cbn [fst] in H3.
  destruct (shr_m mrs2) as [|p|p]; [reflexivity| |lia].
  destruct (e2 <=? emax - prec); reflexivity.
Qed.

Lemma of_decimal_not_nan (negative : bool) (digits exp10 : Z) :
  is_nan (of_decimal negative digits exp10) = false.
Proof.
  unfold of_decimal. destruct digits as [|d|d]; try reflexivity.
  destruct (0 <=? exp10).
  - unfold binary_round.
    destruct (shl_align _ _ _) as [mz ez].
    apply binary_round_aux_not_nan. lia.
  - unfold SFdiv, SFdiv_core_binary.
    set (m' := match _ with Zpos _ => _ | Z0 => _ | Zneg _ => _ end).
    assert (Hm' : 0 <= m').
    { unfold m'. destruct (_ - _) as [|k|k]; try lia.
      apply Z.shiftl_nonneg. lia. }
    pose proof (Z.div_pos m' (Zpos (Z.to_pos (10 ^ (- exp10)))) Hm' ltac:(lia)) as Hq.
    unfold Z.div in Hq.
    destruct (Z.div_eucl m' (Zpos (Z.to_pos (10 ^ (- exp10))))) as [q r].
    cbn [fst] in Hq. apply binary_round_aux_not_nan. exact Hq.
Qed.

Lemma read_digits_count (s : string) :
  forall acc count : Z,
    let '(_, n, _) := read_digits s acc count in
    count <= n
    /\ match s with
       | String c _ => Str.is_digit c = true -> count < n
       | EmptyString => True
       end.
Proof.
  induction s as [|c s IH]; intros acc count; cbn [read_digits].
  - split; [lia|exact I].
  - destruct (Str.is_digit c) eqn:Hc.
    + specialize (IH (10 * acc + Str.digit_value c) (count + 1)).
      destruct (read_digits s _ _) as [[v n] rest].
      destruct IH as [IH _]. split; [lia|]. intros _. lia.
    + split; [lia|discriminate].
Qed.

Lemma unsigned_decimal_some (s : string) :
  match s with
  | String c s' =>
      Str.is_digit c
      || (Ascii.eqb c "."
          && match s' with
             | String c' _ => Str.is_digit c'
             | EmptyString => false
             end)
  | EmptyString => false
  end = true ->
  exists d k, unsigned_decimal s = Some (d, k).
Proof.
  destruct s as [|c s']; [discriminate|]. intros H.
  apply orb_true_iff in H. destruct H as [Hdigit|Hpoint].
  - unfold unsigned_decimal.
    pose proof (read_digits_count (String c s') 0 0) as Hint.
    destruct (read_digits (String c s') 0 0) as [[ip ni] r1].
    destruct Hint as [_ Hfirst]. specialize (Hfirst Hdigit).
    assert (Hni : (0 <? ni) = true) by (apply Z.ltb_lt; lia).
    destruct r1 as [|c1 r2]; [rewrite Hni; eauto|].
    destruct c1 as [[] [] [] [] [] [] [] []]; rewrite Hni; eauto.
    destruct (read_digits r2 ip 0) as [[digits nf] r3].
    cbn [orb]. eauto.
  - apply andb_true_iff in Hpoint. destruct Hpoint as [Hc Hnext].
    apply Ascii.eqb_eq in Hc. subst c.
    destruct s' as [|c' s'']; [discriminate|].
    unfold unsigned_decimal.
    change (read_digits (String "." (String c' s'')) 0 0)
      with (0, 0, String "." (String c' s'')).
    cbv iota beta.
    pose proof (read_digits_count (String c' s'') 0 0) as Hfrac.
    destruct (read_digits (String c' s'') 0 0) as [[digits nf] r3].
    destruct Hfrac as [_ Hfirst]. specialize (Hfirst Hnext).
    assert (Hnf : (0 <? nf) = true) by (apply Z.ltb_lt; lia).
    rewrite Hnf. cbn [orb Z.ltb Z.compare]. eauto.
Qed.

(** [parseFloat] yields NaN exactly on the strings that are not numeric. *)
Lemma parseFloat_nan_iff (s : string) :
  is_nan (parseFloat s) = negb (numeric s).
Proof.
  assert (H : forall negative t, is_nan (unsigned_literal negative t) = negb (begins_numeral t)).
  { intros negative t. unfold unsigned_literal, begins_numeral.
    destruct (String.prefix "Infinity" t); [reflexivity|]. cbn [orb].
    match goal with |- _ = negb ?b => destruct b eqn:Hb end.
    - destruct (unsigned_decimal_some t Hb) as (d & k & ->).
      apply of_decimal_not_nan.
    - rewrite (unsigned_decimal_none t Hb). reflexivity. }
  unfold parseFloat, numeric.
  destruct (trim_start s) as [|c s']; [apply H|].
  destruct c as [[] [] [] [] [] [] [] []]; apply H.
Qed.
End Numerals.

(* ================================================================== *)
(** ** What the transform step stores for a rate *)

Section StoredRates.
Import Number Props Page Samples.

(** C4 (amended): for every array of raw records, whatever its rate
    fields hold, the transform step does not fail: it returns an output of
    the length of the input that holds every record, and
    [getServerSideProps] returns it with a null error.  Each rate is stored
    as [parseFloat] reads it: it is NaN exactly when the field has no
    numeric prefix, that is when after leading white space and an optional
    sign it begins with neither a decimal numeral nor [Infinity], as "abc"
    does; a field with a numeric prefix is stored as a Number other than
    NaN whatever follows the prefix: for instance "12px" is stored as 12,
    "1,5" as 1, "0x10" as 0 and "4.62abc" as 4.62. *)
Theorem non_numeric_rate_becomes_NaN :
  (forall (T : Type) (format_time : string -> T) (raw : list RawRateRecord),
   exists out,
     formattedData format_time (map ItemObject raw) = Normal out
     /\ getServerSideProps format_time (FetchResponse 200 (BodyArray (map ItemObject raw)))
        = {| props := {| exchangeData := out; error := None |}; console := [] |}
     /\ List.length out = List.length raw
     /\ forall r : RawRateRecord,
          In r raw ->
          In (format_record format_time r) out
          /\ (buying_rate (format_record format_time r) = NaN
              <-> numeric (raw_buying_rate r) = false)
          /\ (selling_rate (format_record format_time r) = NaN
              <-> numeric (raw_selling_rate r) = false))
  /\ numeric "abc" = false
  /\ parseFloat "12px" = of_int 12
  /\ parseFloat "1,5" = of_int 1
  /\ parseFloat "0x10" = of_int 0
  /\ parseFloat "4.62abc" = of_decimal false 462 (-2).
Proof.
  split; [|repeat split; vm_compute; reflexivity].
  intros T format_time raw.
  exists (rev (map (format_record format_time) raw)).
  pose proof (formattedData_records format_time raw) as Hfd.
  split; [exact Hfd|].
  split.
  { unfold getServerSideProps, try_block. simpl. rewrite Hfd. reflexivity. }
  split; [rewrite length_rev, length_map; reflexivity|].
  intros r Hin.
  split; [apply in_rev; rewrite rev_involutive; apply in_map; exact Hin|].
  assert (Hnan : forall s : string, parseFloat s = NaN <-> numeric s = false).
  { intros s0. pose proof (parseFloat_nan_iff s0) as Hiff.
    destruct (numeric s0); cbn [negb] in Hiff.
    - split; [intros E; rewrite E in Hiff; discriminate Hiff|discriminate].
    - split; [reflexivity|intros _].
      destruct (parseFloat s0); try discriminate Hiff. reflexivity. }
  split; apply Hnan.
Qed.

Lemma non_numeric_rate_becomes_NaN_witness :
  exists out,
    formattedData (Index.format_time utc) (map ItemObject [at_ten; garbled]) = Normal out
    /\ In (format_record (Index.format_time utc) garbled) out
    /\ buying_rate (format_record (Index.format_time utc) garbled) = NaN.
Proof.
  destruct (proj1 non_numeric_rate_becomes_NaN _ (Index.format_time utc) [at_ten; garbled])
    as (out & Hout & _ & _ & Hall).
  destruct (Hall garbled) as (Hin & Hbuy & _).
  - right. left. reflexivity.
  - exists out. split; [exact Hout|]. split; [exact Hin|].
    apply Hbuy. vm_compute. reflexivity.
Defined.
End StoredRates.

(* ================================================================== *)
(** ** Every parsed rate is a well-formed Number *)

Section WellFormed.
Import Number Props.
Local Abbreviation fexp := (SpecFloat.fexp prec emax).

Lemma shr_1_floored (k m0 : Z) (mrs : shr_record) :
  0 <= k -> floored k m0 mrs -> floored (k + 1) m0 (shr_1 mrs).
Proof.
  intros Hk (Hm & Hq). destruct mrs as [m r s]. cbn [shr_m] in *.
  pose proof (pow2_pos k Hk) as Hpos.
  unfold floored. rewrite pow2_succ by exact Hk.
  set (X := 2 ^ k) in *.
  destruct m as [|[p|p|]|p]; cbn [shr_1 shr_m]; [| | | |lia].
  - lia.
  - rewrite Pos2Z.inj_xI in *. split; [lia|nia].
  - rewrite Pos2Z.inj_xO in *. split; [lia|nia].
  - split; [lia|nia].
Qed.

Lemma shr_floored (m e n : Z) (l : location) :
  0 <= m -> 0 <= n ->
  floored n m (fst (shr (shr_record_of_loc m l) e n))
  /\ snd (shr (shr_record_of_loc m l) e n) = e + n.
Proof.
  intros Hm Hn.
  assert (Hstart : floored 0 m (shr_record_of_loc m l)).
  { unfold floored. rewrite shr_record_of_loc_m. change (2 ^ 0) with 1. lia. }
  destruct n as [|k|k]; [| |lia]; cbn [shr fst snd].
  - split; [exact Hstart|lia].
  - split; [|reflexivity]. rewrite iter_pos_nat, <- (positive_nat_Z k).
    induction (Pos.to_nat k) as [|j IH]; [exact Hstart|].
    rewrite Nat2Z.inj_succ. cbn [Nat.iter].
    replace (Z.succ (Z.of_nat j)) with (Z.of_nat j + 1) by lia.
    apply shr_1_floored; [lia|exact IH].
Qed.

Lemma round_nearest_even_range (m : Z) (l : location) :
  m <= round_nearest_even m l <= m + 1.
Proof.
  destruct l as [|[| |]]; cbn [round_nearest_even]; try lia.
  destruct (Z.even m); lia.
Qed.

Lemma Zdigits2_bounds (m : Z) :
  0 <= m -> m < 2 ^ Zdigits2 m /\ (0 < m -> 2 ^ (Zdigits2 m - 1) <= m) /\ 0 <= Zdigits2 m.
Proof.
  intros Hm. destruct m as [|p|p]; [cbn; lia| |lia].
  cbn [Zdigits2]. pose proof (digits2_bounds p). lia.
Qed.

Lemma rounded_well_formed (s : bool) (m1 e1 : Z) :
  0 <= m1 <= 2 ^ 53 -> -1074 <= e1 ->
  (0 < m1 < 2 ^ 53 -> canonical_mantissa prec emax (Z.to_pos m1) e1 = true) ->
  well_formed (rounded s m1 e1) = true.
Proof.
  intros Hm He Hcanon. unfold rounded.
  destruct (Z.eqb_spec m1 0) as [->|Hnz]; [reflexivity|].
  destruct (Z.eqb_spec m1 (2 ^ 53)) as [->|Hne].
  - destruct (Z.leb_spec (e1 + 1) 971) as [Hfit|Hover]; [|reflexivity].
    apply bounded_intro; [|exact Hfit].
    unfold canonical_mantissa. apply Z.eqb_eq.
    change (Zpos (digits2_pos (Z.to_pos (2 ^ 52)))) with 53.
    rewrite fexp_unfold. lia.
  - destruct (Z.leb_spec e1 971) as [Hfit|Hover]; [|reflexivity].
    apply bounded_intro; [apply Hcanon; lia|exact Hfit].
Qed.

(** Rounding gives a well-formed Number as soon as the mantissa it starts
    from has at least the digits its exponent calls for. *)
Lemma binary_round_aux_well_formed (s : bool) (m e : Z) (l : location) :
  0 <= m -> e <= fexp (Zdigits2 m + e) ->
  well_formed (binary_round_aux prec emax s m e l) = true.
Proof.
  intros Hm Hpre.
  pose proof (Zdigits2_bounds m Hm) as (Dhi & Dlo & Dnn).
  set (d := Zdigits2 m) in *.
  set (e1 := fexp (d + e)) in *.
  assert (He1 : -1074 <= e1) by (unfold e1; rewrite fexp_unfold; lia).
  assert (Hd : d - 53 <= e1 - e) by (unfold e1; rewrite fexp_unfold; lia).
  assert (Hshr : exists mrs, shr_fexp prec emax m e l = (mrs, e1)
                             /\ floored (e1 - e) m mrs).
  { unfold shr_fexp. fold d. fold e1.
    destruct (shr_floored m e (e1 - e) l Hm ltac:(lia)) as [Hfl Hexp].
    destruct (shr (shr_record_of_loc m l) e (e1 - e)) as [mrs e'].
    cbn [fst snd] in Hfl, Hexp. exists mrs. split; [f_equal; lia|exact Hfl]. }
  destruct Hshr as (mrs & Hshr & Hfl).
  unfold binary_round_aux. rewrite Hshr.
  pose proof (round_nearest_even_range (shr_m mrs) (loc_of_shr_record mrs)) as Hrange.
  set (m1 := round_nearest_even (shr_m mrs) (loc_of_shr_record mrs)) in *.
  destruct Hfl as (Hq & Hqlo & Hqhi).
  pose proof (pow2_pos (e1 - e) ltac:(lia)) as Hpos.
  assert (Hle : m1 <= 2 ^ 53).
  { assert (2 ^ d <= 2 ^ (e1 - e) * 2 ^ 53).
    { rewrite <- Z.pow_add_r by lia. apply pow2_le. lia. }
    nia. }
  rewrite (renormalise s m1 e1) by lia.
  apply rounded_well_formed; [lia|exact He1|].
  intros [Hgt Hlt]. unfold canonical_mantissa. apply Z.eqb_eq.
  destruct m1 as [|q|q] eqn:Em1; [lia| |lia]. cbn [Z.to_pos].
  pose proof (digits2_bounds q) as [Qlo Qhi].
  assert (Hq53 : Zpos (digits2_pos q) <= 53).
  { destruct (Z.le_gt_cases (Zpos (digits2_pos q)) 53) as [H|H]; [exact H|].
    pose proof (pow2_le 53 (Zpos (digits2_pos q) - 1)). lia. }
  destruct (Z.eq_dec e1 (-1074)) as [Hmin|Hnorm].
  - rewrite fexp_unfold. lia.
  - assert (Hshift : e1 - e = d - 53) by (unfold e1 in *; rewrite fexp_unfold in *; lia).
    assert (Hmpos : 0 < m).
    { destruct (Z.eq_dec m 0) as [Hz|Hz]; [|lia].
      exfalso. unfold d in Hshift. rewrite Hz in Hshift. cbn [Zdigits2] in Hshift. lia. }
    specialize (Dlo Hmpos).
    assert (Hbig : 2 ^ 52 <= Zpos q).
    { assert (2 ^ (d - 1) = 2 ^ (e1 - e) * 2 ^ 52).
      { rewrite <- Z.pow_add_r by lia. f_equal. lia. }
      nia. }
    rewrite (digits2_unique q 53) by (change (53 - 1) with 52; lia).
    rewrite fexp_unfold. lia.
Qed.

Lemma binary_round_well_formed (s : bool) (m : positive) (e : Z) :
  well_formed (binary_round prec emax s m e) = true.
Proof.
  unfold binary_round.
  pose proof (digits2_bounds m) as [Mlo Mhi].
  set (d := Zpos (digits2_pos m)) in *.
  assert (Hd : 1 <= d) by (unfold d; lia).
  assert (Hal : exists mz ez,
             shl_align m e (fexp (d + e)) = (mz, ez)
             /\ ez <= fexp (Zdigits2 (Zpos mz) + ez)).
  { unfold shl_align.
    destruct (fexp (d + e) - e) as [|k|k] eqn:Ek.
    - exists m, e. split; [reflexivity|]. cbn [Zdigits2]. fold d. lia.
    - exists m, e. split; [reflexivity|]. cbn [Zdigits2]. fold d. lia.
    - exists (shift_pos k m), (fexp (d + e)). split; [reflexivity|].
      cbn [Zdigits2].
      rewrite (digits2_unique (shift_pos k m) (d + Zpos k)).
      + replace (d + Zpos k + fexp (d + e)) with (d + e) by lia. lia.
      + rewrite shift_pos_correct. change (Z.pow_pos 2 k) with (2 ^ Zpos k).
        replace (d + Zpos k - 1) with (Zpos k + (d - 1)) by lia.
        replace (d + Zpos k) with (Zpos k + d) by lia.
        rewrite !Z.pow_add_r by lia.
        pose proof (pow2_pos (Zpos k) ltac:(lia)). nia.
      + lia. }
  destruct Hal as (mz & ez & -> & Hpre).
  apply binary_round_aux_well_formed; [lia|exact Hpre].
Qed.

Lemma SFdiv_finite_well_formed (sx sy : bool) (mx my : positive) (ex ey : Z) :
  well_formed (SFdiv prec emax (S754_finite sx mx ex) (S754_finite sy my ey)) = true.
Proof.
  unfold SFdiv, SFdiv_core_binary. cbn [Zdigits2].
  pose proof (digits2_bounds mx) as [Xlo Xhi].
  pose proof (digits2_bounds my) as [Ylo Yhi].
  set (dx := Zpos (digits2_pos mx)) in *.
  set (dy := Zpos (digits2_pos my)) in *.
  assert (Hdx : 1 <= dx) by (unfold dx; lia).
  assert (Hdy : 1 <= dy) by (unfold dy; lia).
  set (t := dx + ex - (dy + ey)).
  set (e' := Z.min (fexp t) (ex - ey)).
  assert (Hmin : e' <= ex - ey) by (unfold e'; lia).
  set (sh := ex - ey - e') in *.
  assert (Hsh : 0 <= sh) by (unfold sh; lia).
  assert (Hshdef : sh = ex - ey - e') by reflexivity.
  set (m' := match sh with Zpos _ => Z.shiftl (Zpos mx) sh | Z0 => Zpos mx | Zneg _ => 0 end).
  assert (Hm' : m' = Zpos mx * 2 ^ sh).
  { unfold m'. destruct sh as [|k|k] eqn:Esh; [change (2 ^ 0) with 1; lia| |lia].
    apply Z.shiftl_mul_pow2. lia. }
  clearbody m' sh.
  pose proof (pow2_pos sh Hsh) as Hpsh.
  pose proof (Z.div_pos m' (Zpos my) ltac:(nia) ltac:(lia)) as Hq.
  pose proof (Z.mul_div_le m' (Zpos my) ltac:(lia)) as Hqlo.
  pose proof (Z.mul_succ_div_gt m' (Zpos my) ltac:(lia)) as Hqhi.
  unfold Z.div in Hq, Hqlo, Hqhi.
  destruct (Z.div_eucl m' (Zpos my)) as [q r]. cbn [fst] in Hq, Hqlo, Hqhi.
  apply binary_round_aux_well_formed; [exact Hq|].
  assert (He' : e' <= fexp t) by (unfold e'; lia).
  clearbody e'. rewrite fexp_unfold in He'. rewrite fexp_unfold.
  destruct (Z_le_gt_dec e' (-1074)) as [Hlow|Hhigh]; [lia|].
  assert (Hsh53 : dy - dx + 53 <= sh) by (unfold t in He'; lia).
  assert (Hbig : 2 ^ 52 <= q).
  { assert (H1 : 2 ^ (dx - 1) * 2 ^ sh <= m') by nia.
    assert (H2 : 2 ^ (dy + 52) <= 2 ^ (dx - 1) * 2 ^ sh).
    { rewrite <- Z.pow_add_r by lia. apply pow2_le. lia. }
    rewrite Z.pow_add_r in H2 by lia.
    pose proof (pow2_pos dy ltac:(lia)).
    destruct (Z.le_gt_cases (2 ^ 52) q) as [H'|H']; [exact H'|exfalso]. nia. }
  assert (Hdq : 53 <= Zdigits2 q).
  { pose proof (Zdigits2_bounds q Hq) as (Qhi & _ & Qnn).
    destruct (Z.le_gt_cases 53 (Zdigits2 q)) as [H'|H']; [exact H'|exfalso].
    pose proof (pow2_le (Zdigits2 q) 52). lia. }
  lia.
Qed.

Lemma of_decimal_well_formed (negative : bool) (digits exp10 : Z) :
  well_formed (of_decimal negative digits exp10) = true.
Proof.
  unfold of_decimal. destruct digits as [|d|d]; try reflexivity.
  destruct (0 <=? exp10).
  - apply binary_round_well_formed.
  - apply SFdiv_finite_well_formed.
Qed.

(** Every Number [parseFloat] returns is a well-formed binary64 datum. *)
Lemma parseFloat_well_formed (s : string) : well_formed (parseFloat s) = true.
Proof.
  assert (H : forall negative t, well_formed (unsigned_literal negative t) = true).
  { intros negative t. unfold unsigned_literal.
    destruct (String.prefix "Infinity" t); [reflexivity|].
    destruct (unsigned_decimal t) as [[d k]|]; [|reflexivity].
    apply of_decimal_well_formed. }
  unfold parseFloat.
  destruct (trim_start s) as [|c s']; [apply H|].
  destruct c as [[] [] [] [] [] [] [] []]; apply H.
Qed.
End WellFormed.

(* ================================================================== *)
(** ** The domain of the value axis *)

Section Domain.
Import Number Props Page Samples.

Lemma rate_pool_nonempty {T : Type} (exchangeData : list (ExchangeRateData T)) :
  exchangeData <> [] -> rate_pool exchangeData <> [].
Proof.
  destruct exchangeData as [|r rest]; [contradiction|]. discriminate.
Qed.

Lemma rate_pool_In {T : Type} (exchangeData : list (ExchangeRateData T)) (x : number) :
  In x (rate_pool exchangeData) ->
  exists r, In r exchangeData /\ (x = buying_rate r \/ x = selling_rate r).
Proof.
  unfold rate_pool. intros H. apply in_app_or in H.
  destruct H as [H|H]; apply in_map_iff in H; destruct H as (r & Hr & Hin);
    exists r; split; auto.
Qed.

Lemma positive_rate_inv (x : number) :
  positive_rate x = true ->
  exists m e, x = S754_finite false m e /\ bounded prec emax m e = true.
Proof.
  unfold positive_rate. intros H.
  apply andb_true_iff in H. destruct H as [H Hpos].
  apply andb_true_iff in H. destruct H as [Hwf Hfin].
  destruct x as [[|]|[|]| |[|] m e];
    try discriminate Hfin; try discriminate Hpos.
  exists m, e. split; [reflexivity|exact Hwf].
Qed.

(** The rates [getServerSideProps] stores are well-formed Numbers. *)
Lemma formatted_rates_well_formed {T : Type} (format_time : string -> T)
      (raw : list RawRateRecord) (r : ExchangeRateData T) :
  In r (map (format_record format_time) raw) ->
  well_formed (buying_rate r) = true /\ well_formed (selling_rate r) = true.
Proof.
  intros H. apply in_map_iff in H. destruct H as (item & <- & _).
  split; apply parseFloat_well_formed.
Qed.






(** C7: for every non-empty dataset in which all buying and selling rates
    are positive (finite Numbers above zero), the computed domain satisfies
    [minRate < maxRate]. *)
Theorem domain_min_below_max :
  forall (T : Type) (exchangeData : list (ExchangeRateData T)),
    exchangeData <> [] ->
    (forall r, In r exchangeData ->
       positive_rate (buying_rate r) = true /\ positive_rate (selling_rate r) = true) ->
    ltb (minRate exchangeData) (maxRate exchangeData) = true.
Proof.
  intros T exchangeData Hne Hpos.
  assert (Hpool : forall x, In x (rate_pool exchangeData) -> positive_rate x = true).
  { intros x Hx. destruct (rate_pool_In _ _ Hx) as (r & Hr & [-> | ->]);
      apply (Hpos r Hr). }
  assert (Hnan : forall x, In x (rate_pool exchangeData) -> is_nan x = false).
  { intros x Hx. destruct (positive_rate_inv x (Hpool x Hx)) as (m & e & -> & _).
    reflexivity. }
  pose proof (rate_pool_nonempty exchangeData Hne) as Hnonempty.
  destruct (Math_min_spec _ Hnonempty Hnan) as [Hmin_in Hmin_le].
  destruct (Math_max_spec _ Hnonempty Hnan) as [Hmax_in _].
  specialize (Hmin_le _ Hmax_in).
  unfold minRate, maxRate.
  destruct (positive_rate_inv _ (Hpool _ Hmin_in)) as (ml & el & El & Hl).
  destruct (positive_rate_inv _ (Hpool _ Hmax_in)) as (mh & eh & Eh & Hh).
  rewrite El, Eh in *.
  pose proof (ulps_of_leb _ _ _ _ Hl Hh Hmin_le) as Hlh.
  destruct (mul_998_le ml el Hl) as (Ha & Hale & Halt).
  destruct (floor_spec _ Ha) as (Hfa & k1 & Hk1 & Hk1lo & _).
  destruct (mul_1002_ge mh eh Hh) as [Hinf|[Hb Hbge]].
  - rewrite Hinf. apply ltb_infinity. exact Hfa.
  - destruct (ceil_spec _ Hb) as (Hcb & k2 & Hk2 & _ & Hk2hi).
    apply ltb_of_ulps; [exact Hfa|exact Hcb|].
    rewrite Hk1, Hk2.
    pose proof (pow2_pos 1074 ltac:(lia)) as HU.
    pose proof (bounded_range _ _ Hl) as (Hel & Hml & _ & Hnormal).
    destruct (Z.lt_ge_cases k1 k2) as [Hk|Hk]; [nia|exfalso].
    assert (Heq : ulps (mul (S754_finite false ml el) (of_decimal false 998 (-3)))
                  = Zpos ml * 2 ^ (el + 1074)) by nia.
    assert (Hbig : 2 ^ 1074 <= Zpos ml * 2 ^ (el + 1074)).
    { pose proof (pow2_pos (el + 1074) ltac:(lia)). nia. }
    destruct (Z.eq_dec el (-1074)) as [Hsub|Hnorm].
    + rewrite Hsub in Hbig. change (2 ^ (-1074 + 1074)) with 1 in Hbig.
      pose proof (pow2_le 53 1074 ltac:(lia)). lia.
    + destruct (Hnormal ltac:(lia)) as [_ Hm52].
      specialize (Halt Hm52). lia.
Qed.

(** The finiteness in [positive_rate] matters: [parseFloat] reads
    "Infinity" as a Number, and a dataset of infinite rates has the domain
    [Infinity, Infinity]. *)
Lemma infinite_rates_collapse_the_domain :
  let batch := map (format_record (Index.format_time utc)) [unbounded] in
  minRate batch = Infinity /\ maxRate batch = Infinity
  /\ ltb (minRate batch) (maxRate batch) = false.
Proof. vm_compute. repeat split; reflexivity. Qed.

Lemma domain_min_below_max_witness :
  let batch := map (format_record (Index.format_time utc)) [at_nine; at_ten] in
  batch <> []
  /\ ltb (minRate batch) (maxRate batch) = true.
Proof.
  intros batch. split; [discriminate|].
  apply domain_min_below_max; [discriminate|].
  intros r Hr. vm_compute in Hr.
  destruct Hr as [<-|[<-|Hno]]; [| |contradiction]; split; vm_compute; reflexivity.
Defined.
End Domain.

(* ================================================================== *)
(** ** The request from end to end *)

Section EndToEnd.
Import Number Page Samples Served.

Lemma array_map_records {T : Type} (format_time : string -> T) (data : list raw_item) :
  array_map (format_item format_time) data
  = match records_of data with
    | Some raw => Normal (map (format_record format_time) raw)
    | None => Throw TypeError
    end.
Proof.
  induction data as [|[|r] data IH]; cbn [array_map records_of format_item cbind];
    [reflexivity|reflexivity|].
  rewrite IH. destruct (records_of data); reflexivity.
Qed.

Lemma try_block_usable {T : Type} (format_time : string -> T) (o : fetch_outcome) :
  match usable o with
  | Some raw => try_block format_time o = Normal (rev (map (format_record format_time) raw))
  | None => exists err, try_block format_time o = Throw err
  end.
Proof.
  destruct o as [|status [| |data]]; cbn [usable try_block];
    try (destruct (ok status); cbn [negb]; eauto; fail); eauto.
  destruct (ok status); cbn [negb]; [|eauto].
  unfold formattedData. rewrite array_map_records.
  destruct (records_of data); cbn [cbind]; eauto.
Qed.

(** X1: [getServerSideProps] followed by the component is all or nothing.
    When the response has a status in 200..299 and its body is an array
    without [null] items, the props hold every record, formatted and in
    reverse order, with no error and nothing logged, and the component
    draws the chart with as many points as there were records.  In every
    other case (rejected request, other status, malformed body, body that
    is no array, a [null] item) the props hold the empty list and the
    generic message, the caught error is logged once and the component
    shows the error panel. *)
Theorem page_is_all_or_nothing :
  forall (h : JSDate.host) (o : fetch_outcome) (language : Index.Language),
    match usable o with
    | Some raw =>
        Index.getServerSideProps h o
        = {| props := {| exchangeData := rev (map (format_record (Index.format_time h)) raw);
                         error := None |};
             console := [] |}
        /\ exists t data domain,
             Index.CurrencyExchangeGraph (props (Index.getServerSideProps h o)) language
             = Index.ChartPage t data domain
             /\ List.length data = List.length raw
    | None =>
        exists err,
          Index.getServerSideProps h o
          = {| props := {| exchangeData := []; error := Some failure_message |};
               console := [err] |}
          /\ Index.CurrencyExchangeGraph (props (Index.getServerSideProps h o)) language
             = Index.ErrorPanel failure_message
    end.
Proof.
  intros h o language.
  pose proof (try_block_usable (Index.format_time h) o) as H.
  unfold Index.getServerSideProps, getServerSideProps.
  destruct (usable o) as [raw|].
  - rewrite H. split; [reflexivity|].
    eexists _, _, _. split; [reflexivity|].
    unfold Index.localizedData. cbn [props exchangeData].
    rewrite length_map, length_rev, length_map. reflexivity.
  - destruct H as [err ->]. exists err. split; reflexivity.
Qed.

Lemma records_of_null (before after : list raw_item) :
  records_of (before ++ ItemNull :: after) = None.
Proof.
  induction before as [|[|r] before IH]; cbn [app records_of]; [reflexivity|reflexivity|].
  rewrite IH. reflexivity.
Qed.

(** X2: a [null] item anywhere in the body of an accepted response makes the
    map callback throw a [TypeError] when it reads [item.timestamp]; no
    record of the body is served, only the generic message. *)
Theorem null_item_fails_the_request :
  forall (T : Type) (format_time : string -> T) (status : Z)
         (before after : list raw_item),
    200 <= status <= 299 ->
    getServerSideProps format_time
      (FetchResponse status (BodyArray (before ++ ItemNull :: after)))
    = {| props := {| exchangeData := []; error := Some failure_message |};
         console := [TypeError] |}.
Proof.
  intros T format_time status before after Hstatus.
  assert (Hok : ok status = true).
  { unfold ok. apply andb_true_iff. split; apply Z.leb_le; lia. }
  unfold getServerSideProps, try_block, formattedData.
  rewrite Hok, array_map_records, records_of_null. reflexivity.
Qed.

Lemma null_item_fails_the_request_witness :
  200 <= 200 <= 299
  /\ Index.getServerSideProps utc
       (FetchResponse 200 (BodyArray ([ItemObject at_ten] ++ ItemNull :: [ItemObject at_nine])))
     = {| props := {| exchangeData := []; error := Some failure_message |};
          console := [TypeError] |}.
Proof.
  split; [lia|].
  apply (null_item_fails_the_request _ (Index.format_time utc)). lia.
Defined.

(** X3: a timestamp that [Date.parse] on the host reads as NaN, an Invalid
    Date, does not fail the request: the record keeps its rates and its
    raw timestamp, and its display times are the texts that an invalid
    date yields, ["Invalid Date-NaN NaN:NaN"] and ["NaN月NaN日 NaN:NaN"]. *)
Theorem unparseable_timestamp_is_displayed_as_invalid :
  forall (h : JSDate.host) (r : RawRateRecord),
    JSDate.parse h (raw_timestamp r) = None ->
    format_record (Index.format_time h) r
    = {| buying_rate := parseFloat (raw_buying_rate r);
         selling_rate := parseFloat (raw_selling_rate r);
         timestamp := raw_timestamp r;
         formattedTime := {| Index.time_en := "Invalid Date-NaN NaN:NaN";
                             Index.time_zh := "NaN月NaN日 NaN:NaN" |} |}
    /\ format_record (Single.format_time h) r
       = {| buying_rate := parseFloat (raw_buying_rate r);
            selling_rate := parseFloat (raw_selling_rate r);
            timestamp := raw_timestamp r;
            formattedTime := "Invalid Date-NaN NaN:NaN" |}.
Proof.
  intros h r H. unfold format_record, Index.format_time, Single.format_time.
  rewrite H. split; reflexivity.
Qed.

Lemma unparseable_timestamp_is_displayed_as_invalid_witness :
  JSDate.parse utc_plus_8 "yesterday" = None
  /\ formattedTime (format_record (Index.format_time utc_plus_8)
                      {| raw_buying_rate := "4.62"; raw_selling_rate := "4.88";
                         raw_timestamp := "yesterday" |})
     = {| Index.time_en := "Invalid Date-NaN NaN:NaN";
          Index.time_zh := "NaN月NaN日 NaN:NaN" |}.
Proof.
  split; [reflexivity|].
  destruct (unparseable_timestamp_is_displayed_as_invalid utc_plus_8
              {| raw_buying_rate := "4.62"; raw_selling_rate := "4.88";
                 raw_timestamp := "yesterday" |} eq_refl) as [H _].
  rewrite H. reflexivity.
Defined.
End EndToEnd.

(* ================================================================== *)
(** ** The two revisions of the page *)

Section Revisions.
Import Number Page Samples Served.

Lemma try_block_throws_alike {T1 T2 : Type} (f1 : string -> T1) (f2 : string -> T2)
      (o : fetch_outcome) (err : js_error) :
  try_block f1 o = Throw err -> try_block f2 o = Throw err.
Proof.
  destruct o as [|status [| |data]]; cbn [try_block];
    try (destruct (negb (ok status)); intros H; inversion H; reflexivity);
    try (intros H; inversion H; reflexivity).
  destruct (negb (ok status)); [intros H; inversion H; reflexivity|].
  unfold formattedData. rewrite !array_map_records.
  destruct (records_of data); cbn [cbind]; intros H; inversion H; reflexivity.
Qed.

(** X4: the single-language revision of the page serves, logs and draws
    what the bilingual revision does in English: the same error, the same
    console output, the records of the bilingual page projected on their
    English display time, and the same domain. *)
Theorem single_language_page_is_the_english_projection :
  forall (h : JSDate.host) (o : fetch_outcome),
    exchangeData (props (Single.getServerSideProps h o))
    = Index.localizedData (exchangeData (props (Index.getServerSideProps h o))) Index.en
    /\ error (props (Single.getServerSideProps h o))
       = error (props (Index.getServerSideProps h o))
    /\ console (Single.getServerSideProps h o)
       = console (Index.getServerSideProps h o)
    /\ match Single.CurrencyExchangeGraph (props (Single.getServerSideProps h o)),
             Index.CurrencyExchangeGraph (props (Index.getServerSideProps h o)) Index.en
       with
       | Single.ErrorPanel m1, Index.ErrorPanel m2 => m1 = m2
       | Single.ChartPage d1 dom1, Index.ChartPage _ d2 dom2 => d1 = d2 /\ dom1 = dom2
       | _, _ => False
       end.
Proof.
  intros h o.
  unfold Single.getServerSideProps, Index.getServerSideProps, getServerSideProps.
  pose proof (try_block_usable (Index.format_time h) o) as Hi.
  pose proof (try_block_usable (Single.format_time h) o) as Hs.
  destruct (usable o) as [raw|].
  - rewrite Hi, Hs. cbn [props exchangeData error console].
    assert (Hdata : rev (map (format_record (Single.format_time h)) raw)
                    = Index.localizedData
                        (rev (map (format_record (Index.format_time h)) raw)) Index.en).
    { unfold Index.localizedData. rewrite <- map_rev, <- map_rev, map_map. reflexivity. }
    split; [exact Hdata|]. split; [reflexivity|]. split; [reflexivity|].
    cbn [Single.CurrencyExchangeGraph Index.CurrencyExchangeGraph error exchangeData].
    split; [exact Hdata|].
    unfold minRate, maxRate, rate_pool. rewrite <- !map_rev, !map_map. reflexivity.
  - destruct Hi as [e1 Hi], Hs as [e2 Hs]. rewrite Hi, Hs.
    cbn [props exchangeData error console].
    rewrite (try_block_throws_alike _ (Single.format_time h) _ _ Hi) in Hs.
    inversion Hs. subst e2.
    split; [reflexivity|]. split; [reflexivity|]. split; reflexivity.
Qed.
End Revisions.

(* ================================================================== *)
(** ** Languages and stored rates *)

Section Labels.
Import Number Page Samples.

(** X5: switching the language changes the texts only.  The language after
    the switch is the other one.  Both views are the error panel with the
    same message, or both are the chart with the same domain, the same
    rates and the same timestamps; the chart after the switch carries the
    translations of the other language, which differ from those before,
    and shows every record with its display time in the other language:
    the Chinese one when the page was in English, the English one when it
    was in Chinese. *)
Theorem toggling_changes_only_the_labels :
  forall (p : PageProps Index.FormattedTime) (language : Index.Language),
    Index.toggleLanguage language <> language
    /\ match Index.CurrencyExchangeGraph p language,
             Index.CurrencyExchangeGraph p (Index.toggleLanguage language) with
       | Index.ErrorPanel before, Index.ErrorPanel after => before = after
       | Index.ChartPage t0 before domain, Index.ChartPage t after domain' =>
           domain = domain'
           /\ map buying_rate before = map buying_rate after
           /\ map selling_rate before = map selling_rate after
           /\ map timestamp before = map timestamp after
           /\ t = Index.translations (Index.toggleLanguage language)
           /\ t = Index.translations
                    (match language with Index.en => Index.zh | Index.zh => Index.en end)
           /\ t <> t0
           /\ map formattedTime after
              = map (fun item => Index.select (formattedTime item) (Index.toggleLanguage language))
                    (exchangeData p)
           /\ map formattedTime after
              = map (fun item =>
                       match language with
                       | Index.en => Index.time_zh (formattedTime item)
                       | Index.zh => Index.time_en (formattedTime item)
                       end)
                    (exchangeData p)
       | _, _ => False
       end.
Proof.
  intros p language. split; [destruct language; discriminate|].
  destruct p as [data [[|c rest]|]]; destruct language;
    cbn [Index.CurrencyExchangeGraph Index.toggleLanguage error exchangeData];
    try reflexivity;
    unfold Index.localizedData; rewrite !map_map;
    cbn [buying_rate selling_rate timestamp formattedTime Index.select];
    repeat split; try reflexivity; discriminate.
Qed.

(** X6: the stored rate of a record is [NaN] exactly when the raw field does
    not begin, after leading white space and an optional sign, with a
    decimal numeral or [Infinity]. *)
Theorem stored_rate_is_NaN_iff_not_numeric :
  forall (T : Type) (format_time : string -> T) (r : RawRateRecord),
    is_nan (buying_rate (format_record format_time r))
    = negb (Props.numeric (raw_buying_rate r))
    /\ is_nan (selling_rate (format_record format_time r))
       = negb (Props.numeric (raw_selling_rate r)).
Proof.
  intros T format_time r. split; apply parseFloat_nan_iff.
Qed.
End Labels.

(* ================================================================== *)
(** ** The domain and the rates it is computed from *)

Section DomainEdges.
Import Number Props Page Samples.

Lemma min_from_nan (args : list number) :
  (exists x, In x args /\ is_nan x = true) ->
  forall lowest, min_from lowest args = NaN.
Proof.
  induction args as [|a args IH]; intros (x & Hin & Hx) lowest; [destruct Hin|].
  cbn [min_from]. destruct (is_nan a) eqn:Ha; [reflexivity|].
  destruct Hin as [->|Hin]; [rewrite Hx in Ha; discriminate|].
  destruct (_ || _); apply IH; eauto.
Qed.

Lemma max_from_nan (args : list number) :
  (exists x, In x args /\ is_nan x = true) ->
  forall highest, max_from highest args = NaN.
Proof.
  induction args as [|a args IH]; intros (x & Hin & Hx) highest; [destruct Hin|].
  cbn [max_from]. destruct (is_nan a) eqn:Ha; [reflexivity|].
  destruct Hin as [->|Hin]; [rewrite Hx in Ha; discriminate|].
  destruct (_ || _); apply IH; eauto.
Qed.

(** X7: a single [NaN] rate, buying or selling, in any record makes both
    bounds of the domain [NaN]. *)
Theorem one_NaN_rate_spoils_the_domain :
  forall (T : Type) (exchangeData : list (ExchangeRateData T)) (r : ExchangeRateData T),
    In r exchangeData ->
    is_nan (buying_rate r) = true \/ is_nan (selling_rate r) = true ->
    minRate exchangeData = NaN /\ maxRate exchangeData = NaN.
Proof.
  intros T exchangeData r Hin Hnan.
  assert (H : exists x, In x (rate_pool exchangeData) /\ is_nan x = true).
  { unfold rate_pool. destruct Hnan as [Hb|Hs].
    - exists (buying_rate r). split; [|exact Hb].
      apply in_or_app. left. apply in_map. exact Hin.
    - exists (selling_rate r). split; [|exact Hs].
      apply in_or_app. right. apply in_map. exact Hin. }
  unfold minRate, maxRate, Math_min, Math_max.
  rewrite (min_from_nan _ H), (max_from_nan _ H). split; reflexivity.
Qed.

Lemma one_NaN_rate_spoils_the_domain_witness :
  let batch := map (format_record (Index.format_time utc)) [at_nine; garbled; at_ten] in
  minRate batch = NaN /\ maxRate batch = NaN.
Proof.
  intros batch.
  apply (one_NaN_rate_spoils_the_domain _ batch (format_record (Index.format_time utc) garbled)).
  - right. left. reflexivity.
  - left. vm_compute. reflexivity.
Defined.

Lemma leb_of_ulps (x y : number) :
  nonneg_finite x = true -> nonneg_finite y = true ->
  ulps x <= ulps y -> leb x y = true.
Proof.
  intros Hx Hy Hle.
  destruct x as [[|]| | |[|] m1 e1]; try discriminate Hx;
    destruct y as [[|]| | |[|] m2 e2]; try discriminate Hy;
    cbn [ulps cond_Zopp nonneg_finite] in *; try reflexivity.
  - pose proof (bounded_range _ _ Hx) as (He1 & _).
    pose proof (pow2_pos (e1 + 1074) ltac:(lia)). nia.
  - unfold leb, SFleb, SFcompare.
    destruct (Z.compare_spec e1 e2) as [Heq|Hlt|Hgt].
    + subst e2. pose proof (bounded_range _ _ Hx) as (He1 & _).
      pose proof (pow2_pos (e1 + 1074) ltac:(lia)).
      assert (Hm : (m1 <= m2)%positive) by nia.
      change (Pos.compare_cont Eq m1 m2) with (Pos.compare m1 m2).
      destruct (Pos.compare_spec m1 m2); [reflexivity|reflexivity|lia].
    + reflexivity.
    + pose proof (exponent_order _ _ _ _ Hy Hx Hgt). lia.
Qed.

(** X8: when all rates are positive, every buying and every selling rate of
    the dataset lies within the computed domain:
    [minRate <= rate <= maxRate]. *)
Theorem domain_contains_every_rate :
  forall (T : Type) (exchangeData : list (ExchangeRateData T)),
    (forall r, In r exchangeData ->
       positive_rate (buying_rate r) = true /\ positive_rate (selling_rate r) = true) ->
    forall r, In r exchangeData ->
      leb (minRate exchangeData) (buying_rate r) = true
      /\ leb (minRate exchangeData) (selling_rate r) = true
      /\ leb (buying_rate r) (maxRate exchangeData) = true
      /\ leb (selling_rate r) (maxRate exchangeData) = true.
Proof.
  intros T exchangeData Hpos r Hr.
  assert (Hpool : forall x, In x (rate_pool exchangeData) -> positive_rate x = true).
  { intros x Hx. destruct (rate_pool_In _ _ Hx) as (r' & Hr' & [-> | ->]);
      apply (Hpos r' Hr'). }
  assert (Hnan : forall x, In x (rate_pool exchangeData) -> is_nan x = false).
  { intros x Hx. destruct (positive_rate_inv x (Hpool x Hx)) as (m & e & -> & _).
    reflexivity. }
  assert (Hnonempty : rate_pool exchangeData <> []).
  { apply rate_pool_nonempty. intros ->. destruct Hr. }
  destruct (Math_min_spec _ Hnonempty Hnan) as [Hmin_in Hmin_le].
  destruct (Math_max_spec _ Hnonempty Hnan) as [Hmax_in Hmax_le].
  assert (Hbetween : forall x, In x (rate_pool exchangeData) ->
            leb (minRate exchangeData) x = true /\ leb x (maxRate exchangeData) = true).
  { intros x Hx. specialize (Hmin_le x Hx). specialize (Hmax_le x Hx).
    unfold minRate, maxRate.
    destruct (positive_rate_inv _ (Hpool _ Hmin_in)) as (ml & el & El & Hl).
    destruct (positive_rate_inv _ (Hpool _ Hmax_in)) as (mh & eh & Eh & Hh).
    destruct (positive_rate_inv _ (Hpool _ Hx)) as (mx & ex & Ex & Hbx).
    rewrite El, Eh, Ex in *.
    pose proof (ulps_of_leb _ _ _ _ Hl Hbx Hmin_le) as Hlx.
    pose proof (ulps_of_leb _ _ _ _ Hbx Hh Hmax_le) as Hxh.
    destruct (mul_998_le ml el Hl) as (Ha & Hale & _).
    destruct (floor_spec _ Ha) as (Hfa & k1 & Hk1 & Hk1lo & _).
    split.
    - apply leb_of_ulps; [exact Hfa|exact Hbx|]. cbn [ulps cond_Zopp]. lia.
    - destruct (mul_1002_ge mh eh Hh) as [Hinf|[Hb Hbge]].
      + rewrite Hinf. reflexivity.
      + destruct (ceil_spec _ Hb) as (Hcb & k2 & Hk2 & _ & Hk2hi).
        apply leb_of_ulps; [exact Hbx|exact Hcb|]. cbn [ulps cond_Zopp]. lia. }
  assert (Hb : In (buying_rate r) (rate_pool exchangeData)).
  { unfold rate_pool. apply in_or_app. left. apply in_map. exact Hr. }
  assert (Hs : In (selling_rate r) (rate_pool exchangeData)).
  { unfold rate_pool. apply in_or_app. right. apply in_map. exact Hr. }
  destruct (Hbetween _ Hb) as [H1 H2]. destruct (Hbetween _ Hs) as [H3 H4].
  repeat split; assumption.
Qed.

Lemma domain_contains_every_rate_witness :
  let batch := map (format_record (Index.format_time utc)) [at_nine; at_ten] in
  let r := format_record (Index.format_time utc) at_ten in
  leb (minRate batch) (buying_rate r) = true
  /\ leb (minRate batch) (selling_rate r) = true
  /\ leb (buying_rate r) (maxRate batch) = true
  /\ leb (selling_rate r) (maxRate batch) = true.
Proof.
  intros batch r. apply (domain_contains_every_rate _ batch).
  - intros r' Hr. vm_compute in Hr.
    destruct Hr as [<-|[<-|Hno]]; [| |contradiction]; split; vm_compute; reflexivity.
  - right. left. reflexivity.
Defined.

(** X9: when all rates of a non-empty dataset are positive, the lower bound
    of the domain is a whole number that is not negative, and the upper
    bound is a whole number from 1 on or [Infinity]. *)
Theorem domain_bounds_are_whole_numbers :
  forall (T : Type) (exchangeData : list (ExchangeRateData T)),
    exchangeData <> [] ->
    (forall r, In r exchangeData ->
       positive_rate (buying_rate r) = true /\ positive_rate (selling_rate r) = true) ->
    (exists k : Z, 0 <= k /\ nonneg_finite (minRate exchangeData) = true
                   /\ ulps (minRate exchangeData) = k * 2 ^ 1074)
    /\ (maxRate exchangeData = Infinity
        \/ exists k : Z, 1 <= k /\ nonneg_finite (maxRate exchangeData) = true
                         /\ ulps (maxRate exchangeData) = k * 2 ^ 1074).
Proof.
  intros T exchangeData Hne Hpos.
  assert (Hpool : forall x, In x (rate_pool exchangeData) -> positive_rate x = true).
  { intros x Hx. destruct (rate_pool_In _ _ Hx) as (r' & Hr' & [-> | ->]);
      apply (Hpos r' Hr'). }
  assert (Hnan : forall x, In x (rate_pool exchangeData) -> is_nan x = false).
  { intros x Hx. destruct (positive_rate_inv x (Hpool x Hx)) as (m & e & -> & _).
    reflexivity. }
  pose proof (rate_pool_nonempty exchangeData Hne) as Hnonempty.
  destruct (Math_min_spec _ Hnonempty Hnan) as [Hmin_in _].
  destruct (Math_max_spec _ Hnonempty Hnan) as [Hmax_in _].
  unfold minRate, maxRate.
  destruct (positive_rate_inv _ (Hpool _ Hmin_in)) as (ml & el & -> & Hl).
  destruct (positive_rate_inv _ (Hpool _ Hmax_in)) as (mh & eh & -> & Hh).
  pose proof (pow2_pos 1074 ltac:(lia)) as HU.
  split.
  - destruct (mul_998_le ml el Hl) as (Ha & _ & _).
    destruct (floor_spec _ Ha) as (Hfa & k & Hk & Hklo & Hkhi).
    exists k. split; [|split; assumption].
    assert (0 <= ulps (mul (S754_finite false ml el) (of_decimal false 998 (-3)))).
    { destruct (mul (S754_finite false ml el) (of_decimal false 998 (-3)))
        as [[|]| | |[|] m e]; try discriminate Ha; cbn [ulps cond_Zopp]; [lia|].
      pose proof (bounded_range _ _ Ha) as (He & _).
      pose proof (pow2_pos (e + 1074) ltac:(lia)). nia. }
    nia.
  - destruct (mul_1002_ge mh eh Hh) as [Hinf|[Hb Hbge]]; [left; rewrite Hinf; reflexivity|].
    right. destruct (ceil_spec _ Hb) as (Hcb & k & Hk & Hklo & Hkhi).
    exists k. split; [|split; assumption].
    pose proof (bounded_range _ _ Hh) as (Heh & _).
    pose proof (pow2_pos (eh + 1074) ltac:(lia)). nia.
Qed.

Lemma domain_bounds_are_whole_numbers_witness :
  let batch := map (format_record (Index.format_time utc)) [at_nine; at_ten] in
  (exists k : Z, 0 <= k /\ ulps (minRate batch) = k * 2 ^ 1074)
  /\ (maxRate batch = Infinity \/ exists k : Z, 1 <= k /\ ulps (maxRate batch) = k * 2 ^ 1074).
Proof.
  intros batch.
  destruct (domain_bounds_are_whole_numbers _ batch) as [(k & Hk & _ & Hmin) Hmax].
  - discriminate.
  - intros r Hr. vm_compute in Hr.
    destruct Hr as [<-|[<-|Hno]]; [| |contradiction]; split; vm_compute; reflexivity.
  - split; [exists k; split; assumption|].
    destruct Hmax as [Hinf|(k' & Hk' & _ & Hmax)]; [left; exact Hinf|right].
    exists k'. split; assumption.
Defined.
End DomainEdges.

(* ================================================================== *)
(** ** The calendar of [Date] *)

Section Calendar.
Import Written.

Lemma all_from_spec (P : Z -> bool) (count : nat) :
  forall start : Z,
    all_from P start count = true ->
    forall z, start <= z < start + Z.of_nat count -> P z = true.
Proof.
  induction count as [|c IH]; intros start H z Hz; [lia|].
  cbn [all_from] in H. apply andb_true_iff in H. destruct H as [H0 Hrest].
  destruct (Z.eq_dec z start) as [->|Hne]; [exact H0|].
  apply (IH (start + 1) Hrest). lia.
Qed.

Lemma cycle_date_in_range (doe : Z) :
  0 <= doe < 146097 ->
  let '(yoe, m, d) := cycle_date doe in
  0 <= yoe < 400 /\ 1 <= m <= 12 /\ 1 <= d <= 31.
Proof.
  intros H. unfold cycle_date. cbv zeta.
  destruct (Z.ltb_spec ((5 * (doe - (365 * ((doe - doe / 1460 + doe / 36524 - doe / 146096) / 365) + (doe - doe / 1460 + doe / 36524 - doe / 146096) / 365 / 4 - (doe - doe / 1460 + doe / 36524 - doe / 146096) / 365 / 100)) + 2) / 153) 10).
  all: Z.div_mod_to_equations; lia.
Qed.


Lemma year_of_cycle_day (yoe doy : Z) :
  0 <= yoe < 400 -> 0 <= doy <= 365 ->
  (doy = 365 -> (yoe + 1) mod 4 = 0 /\ ((yoe + 1) mod 100 <> 0 \/ (yoe + 1) mod 400 = 0)) ->
  let n := yoe * 365 + yoe / 4 - yoe / 100 + doy in
  0 <= n < 146097 /\ (n - n / 1460 + n / 36524 - n / 146096) / 365 = yoe.
Proof.
  intros Hy Hdoy Hleap. cbv zeta.
  Z.div_mod_to_equations; lia.
Qed.

Lemma month_of_year_day (mp doy : Z) :
  0 <= mp <= 11 ->
  (153 * mp + 2) / 5 <= doy < (153 * (mp + 1) + 2) / 5 ->
  (5 * doy + 2) / 153 = mp.
Proof.
  intros Hmp H.
  Z.div_mod_to_equations; lia.
Qed.

Lemma month_length (leap : bool) (m : Z) :
  1 <= m <= 12 ->
  let mp := if 2 <? m then m - 3 else m + 9 in
  0 <= mp <= 11
  /\ 0 <= (153 * mp + 2) / 5
  /\ (153 * mp + 2) / 5 + days_in_month leap m <= (153 * (mp + 1) + 2) / 5
  /\ (153 * mp + 2) / 5 + days_in_month leap m
     <= (if m =? 2 then (if leap then 366 else 365) else 337)
  /\ (if mp <? 10 then mp + 3 else mp - 9) = m.
Proof.
  intros Hm.
  assert (Hcases : m = 1 \/ m = 2 \/ m = 3 \/ m = 4 \/ m = 5 \/ m = 6 \/ m = 7 \/ m = 8
                   \/ m = 9 \/ m = 10 \/ m = 11 \/ m = 12) by lia.
  destruct leap;
    repeat (destruct Hcases as [-> | Hcases]; [vm_compute; intuition discriminate|]);
    subst m; vm_compute; intuition discriminate.
Qed.

Lemma cycle_date_of_cycle_day (yoe m d : Z) :
  0 <= yoe < 400 -> 1 <= m <= 12 ->
  1 <= d <= days_in_month (is_leap_year (yoe + (if m <=? 2 then 1 else 0))) m ->
  0 <= cycle_day yoe m + (d - 1) < 146097
  /\ cycle_date (cycle_day yoe m + (d - 1)) = (yoe, m, d).
Proof.
  intros Hy Hm Hd.
  pose proof (month_length (is_leap_year (yoe + (if m <=? 2 then 1 else 0))) m Hm) as Hlen.
  cbv zeta in Hlen. unfold cycle_day, cycle_date. cbv zeta.
  set (mp := if 2 <? m then m - 3 else m + 9) in *.
  destruct Hlen as (Hmp & Hstart & Hnext & Hlen & Hback).
  set (doy := (153 * mp + 2) / 5 + (d - 1)).
  replace (yoe * 365 + yoe / 4 - yoe / 100 + (153 * mp + 2) / 5 + (d - 1))
    with (yoe * 365 + yoe / 4 - yoe / 100 + doy) by (unfold doy; lia).
  assert (Hdoy : 0 <= doy <= 365).
  { unfold doy. destruct (m =? 2); [destruct (is_leap_year _)|]; lia. }
  assert (Hleap : doy = 365 ->
            (yoe + 1) mod 4 = 0 /\ ((yoe + 1) mod 100 <> 0 \/ (yoe + 1) mod 400 = 0)).
  { intros E. unfold doy in E.
    destruct (Z.eqb_spec m 2) as [->|Hne]; [|lia].
    cbn [Z.leb Z.eqb Z.compare Pos.compare Pos.compare_cont Pos.eqb] in Hlen, Hd.
    assert (Hs : (153 * mp + 2) / 5 = 337) by reflexivity.
    unfold days_in_month in Hd, Hlen. cbn [Z.eqb Pos.eqb] in Hd, Hlen.
    unfold is_leap_year in Hlen, Hd.
    destruct (Z.eqb_spec ((yoe + 1) mod 4) 0), (Z.eqb_spec ((yoe + 1) mod 100) 0),
      (Z.eqb_spec ((yoe + 1) mod 400) 0); cbn [andb orb negb] in Hlen, Hd; try lia;
      (split; [Z.div_mod_to_equations; lia|tauto]). }
  destruct (year_of_cycle_day yoe doy Hy Hdoy Hleap) as [Hn Hyoe].
  cbv zeta in Hyoe. split; [exact Hn|].
  rewrite Hyoe.
  replace (yoe * 365 + yoe / 4 - yoe / 100 + doy - (365 * yoe + yoe / 4 - yoe / 100))
    with doy by lia.
  assert (Hmonth : (5 * doy + 2) / 153 = mp).
  { apply month_of_year_day; [exact Hmp|]. unfold doy. lia. }
  rewrite Hmonth, Hback. unfold doy. f_equal. lia.
Qed.


Lemma is_leap_year_cycle (k e : Z) : is_leap_year (k + 400 * e) = is_leap_year k.
Proof.
  unfold is_leap_year.
  replace ((k + 400 * e) mod 4) with (k mod 4)
    by (replace (400 * e) with (100 * e * 4) by lia; rewrite Z_mod_plus_full; reflexivity).
  replace ((k + 400 * e) mod 100) with (k mod 100)
    by (replace (400 * e) with (4 * e * 100) by lia; rewrite Z_mod_plus_full; reflexivity).
  replace ((k + 400 * e) mod 400) with (k mod 400)
    by (replace (400 * e) with (e * 400) by lia; rewrite Z_mod_plus_full; reflexivity).
  reflexivity.
Qed.

Lemma civil_cycle (z : Z) :
  JSDate.civil z
  = let era := (z + 719468) / 146097 in
    let '(yoe, m, d) := cycle_date (z + 719468 - era * 146097) in
    (if m <=? 2 then yoe + era * 400 + 1 else yoe + era * 400, m, d).
Proof. reflexivity. Qed.

(** The date of the day number of a calendar date is that date. *)
Lemma civil_MakeDay (y m d : Z) :
  1 <= m <= 12 -> 1 <= d <= days_in_month (is_leap_year y) m ->
  JSDate.civil (JSDate.MakeDay y m d) = (y, m, d).
Proof.
  intros Hm Hd.
  set (y' := if m <=? 2 then y - 1 else y).
  set (era := y' / 400).
  set (yoe := y' - era * 400).
  assert (Hyoe : 0 <= yoe < 400).
  { unfold yoe, era. pose proof (Z.mod_pos_bound y' 400 ltac:(lia)).
    rewrite Z.mod_eq in H by lia. lia. }
  assert (Hday : JSDate.MakeDay y m d = era * 146097 + (cycle_day yoe m + (d - 1)) - 719468).
  { unfold JSDate.MakeDay, cycle_day, yoe, era, y'. cbv zeta. lia. }
  assert (Hleap : is_leap_year y = is_leap_year (yoe + (if m <=? 2 then 1 else 0))).
  { rewrite <- (is_leap_year_cycle (yoe + (if m <=? 2 then 1 else 0)) era).
    f_equal. unfold yoe, y'.
    destruct (m <=? 2); lia. }
  rewrite Hleap in Hd.
  destruct (cycle_date_of_cycle_day yoe m d Hyoe Hm Hd) as [Hn Ecycle].
  set (n := cycle_day yoe m + (d - 1)) in *.
  assert (Hera : (JSDate.MakeDay y m d + 719468) / 146097 = era).
  { rewrite Hday. symmetry. apply (Z.div_unique _ _ era n); lia. }
  rewrite civil_cycle. cbv zeta. rewrite Hera.
  replace (JSDate.MakeDay y m d + 719468 - era * 146097) with n by lia.
  rewrite Ecycle. do 2 f_equal.
  unfold yoe, y'. destruct (m <=? 2); lia.
Qed.

(** Every day number has a month in 1..12 and a day in 1..31. *)
Lemma civil_in_range (z : Z) :
  let '(_, m, d) := JSDate.civil z in 1 <= m <= 12 /\ 1 <= d <= 31.
Proof.
  rewrite civil_cycle. cbv zeta.
  set (era := (z + 719468) / 146097).
  assert (Hdoe : 0 <= z + 719468 - era * 146097 < 146097).
  { unfold era. pose proof (Z.mod_pos_bound (z + 719468) 146097 ltac:(lia)) as H.
    rewrite Z.mod_eq in H by lia. lia. }
  pose proof (cycle_date_in_range (z + 719468 - era * 146097) Hdoe) as H.
  destruct (cycle_date (z + 719468 - era * 146097)) as [[yoe m] d].
  lia.
Qed.

Lemma digit_char_spec (k : Z) :
  0 <= k <= 9 ->
  Str.is_digit (Str.digit_char k) = true /\ Str.digit_value (Str.digit_char k) = k.
Proof.
  intros H.
  assert (Hk : k = 0 \/ k = 1 \/ k = 2 \/ k = 3 \/ k = 4 \/ k = 5 \/ k = 6 \/ k = 7
               \/ k = 8 \/ k = 9) by lia.
  repeat (destruct Hk as [->|Hk]; [split; reflexivity|]). subst k. split; reflexivity.
Qed.

Lemma fixed_digits_digit (j : nat) (k : Z) (s : string) (acc : Z) :
  0 <= k <= 9 ->
  JSDate.fixed_digits (S j) (String (Str.digit_char k) s) acc
  = JSDate.fixed_digits j s (10 * acc + k).
Proof.
  intros H. destruct (digit_char_spec k H) as [Hd Hv].
  cbn [JSDate.fixed_digits]. rewrite Hd, Hv. reflexivity.
Qed.

Lemma fixed_digits_two (n : Z) (rest : string) :
  0 <= n <= 99 ->
  JSDate.fixed_digits 2 (two_digits n ++ rest) 0 = Some (n, rest).
Proof.
  intros H. unfold two_digits. cbn [append].
  rewrite !fixed_digits_digit by (Z.div_mod_to_equations; lia).
  cbn [JSDate.fixed_digits]. f_equal. f_equal. Z.div_mod_to_equations. lia.
Qed.

Lemma fixed_digits_two_only (n : Z) :
  0 <= n <= 99 ->
  JSDate.fixed_digits 2 (two_digits n) 0 = Some (n, EmptyString).
Proof.
  intros H. unfold two_digits.
  rewrite !fixed_digits_digit by (Z.div_mod_to_equations; lia).
  cbn [JSDate.fixed_digits]. f_equal. f_equal. Z.div_mod_to_equations. lia.
Qed.

Lemma fixed_digits_four (n : Z) (rest : string) :
  0 <= n <= 9999 ->
  JSDate.fixed_digits 4 (four_digits n ++ rest) 0 = Some (n, rest).
Proof.
  intros H. unfold four_digits, two_digits. cbn [append].
  rewrite !fixed_digits_digit by (Z.div_mod_to_equations; lia).
  cbn [JSDate.fixed_digits]. f_equal. f_equal. Z.div_mod_to_equations. lia.
Qed.

Lemma padStart_two_digits (n : Z) :
  0 <= n <= 99 -> Str.padStart (Str.of_int n) 2 "0" = two_digits n.
Proof.
  intros H.
  assert (Hall : all_from (fun k => String.eqb (Str.padStart (Str.of_int k) 2 "0")
                                               (two_digits k)) 0 100 = true)
    by (vm_compute; reflexivity).
  apply String.eqb_eq. apply (all_from_spec _ _ _ Hall). lia.
Qed.

Lemma zone_part_designator (offset : Z) :
  -1439 <= offset <= 1439 ->
  JSDate.zone_part (zone_designator offset) = Some offset.
Proof.
  intros H. unfold zone_designator.
  destruct (Z.eqb_spec offset 0) as [->|Hnz]; [reflexivity|].
  assert (Hh : 0 <= Z.abs offset / 60 <= 23) by (Z.div_mod_to_equations; lia).
  assert (Hm : 0 <= Z.abs offset mod 60 <= 59) by (Z.div_mod_to_equations; lia).
  assert (Hsplit : Z.abs offset = Z.abs offset / 60 * 60 + Z.abs offset mod 60)
    by (Z.div_mod_to_equations; lia).
  destruct (Z.ltb_spec offset 0) as [Hneg|Hpos];
    cbn [JSDate.zone_part Ascii.eqb Bool.eqb orb];
    rewrite fixed_digits_two by lia; cbn [JSDate.bind JSDate.expect Ascii.eqb Bool.eqb append];
    rewrite fixed_digits_two_only by lia; cbn [JSDate.bind];
    rewrite (proj2 (Z.leb_le _ 23)) by lia; rewrite (proj2 (Z.leb_le _ 59)) by lia;
    cbn [andb]; f_equal; lia.
Qed.

Lemma valid_wall_clock_inv (w : wall_clock) :
  valid_wall_clock w = true ->
  0 <= year w <= 9999 /\ 1 <= month w <= 12
  /\ 1 <= day w <= days_in_month (is_leap_year (year w)) (month w)
  /\ 0 <= hour w <= 23 /\ 0 <= minute w <= 59 /\ 0 <= second w <= 59.
Proof.
  unfold valid_wall_clock. intros H.
  repeat (apply andb_true_iff in H; destruct H as [H ?]).
  repeat match goal with
         | H : (_ <=? _) = true |- _ => apply Z.leb_le in H
         end.
  lia.
Qed.

Lemma days_in_month_le (leap : bool) (m : Z) : days_in_month leap m <= 31.
Proof.
  unfold days_in_month. destruct (m =? 2); [destruct leap; lia|].
  destruct (_ || _); lia.
Qed.

Lemma zone_designator_no_point (offset : Z) :
  JSDate.starts_with "." (zone_designator offset) = false.
Proof.
  unfold zone_designator. destruct (offset =? 0); [reflexivity|].
  destruct (offset <? 0); reflexivity.
Qed.

Lemma offset_part_designator (offset : Z) :
  -1439 <= offset <= 1439 ->
  JSDate.offset_part (zone_designator offset) = Some (Some offset).
Proof.
  intros H. pose proof (zone_part_designator offset H) as Hzone.
  destruct (zone_designator offset) as [|c rest] eqn:E.
  - unfold zone_designator in E. destruct (offset =? 0); discriminate E.
  - unfold JSDate.offset_part. rewrite Hzone. reflexivity.
Qed.

(** The fields of a written timestamp. *)
Lemma fields_written (w : wall_clock) (offset : Z) :
  valid_wall_clock w = true -> -1439 <= offset <= 1439 ->
  JSDate.fields (written w offset)
  = Some (JSDate.MakeDay (year w) (month w) (day w) * JSDate.msPerDay
          + hour w * JSDate.msPerHour + minute w * JSDate.msPerMinute
          + second w * 1000 + 0,
          Some offset).
Proof.
  intros Hw Hoff.
  destruct (valid_wall_clock_inv w Hw) as (Hy & Hm & Hd & Hh & Hmi & Hs).
  pose proof (days_in_month_le (is_leap_year (year w)) (month w)) as Hd31.
  unfold written, JSDate.fields.
  rewrite fixed_digits_four by lia.
  cbn [JSDate.bind JSDate.expect append Ascii.eqb Bool.eqb].
  rewrite fixed_digits_two by lia.
  cbn [JSDate.bind JSDate.expect append Ascii.eqb Bool.eqb].
  rewrite fixed_digits_two by lia.
  cbn [JSDate.bind JSDate.expect append Ascii.eqb Bool.eqb].
  rewrite fixed_digits_two by lia.
  cbn [JSDate.bind JSDate.expect append Ascii.eqb Bool.eqb].
  rewrite fixed_digits_two by lia.
  cbn [JSDate.bind JSDate.expect append Ascii.eqb Bool.eqb].
  unfold JSDate.seconds_part.
  cbn [JSDate.bind JSDate.expect JSDate.starts_with append Ascii.eqb Bool.eqb].
  rewrite fixed_digits_two by lia.
  cbn [JSDate.bind]. rewrite zone_designator_no_point.
  cbn [JSDate.bind]. cbv beta iota.
  rewrite offset_part_designator by lia. cbn [JSDate.bind].
  unfold JSDate.valid_fields.
  repeat rewrite (proj2 (Z.leb_le _ _)) by lia.
  reflexivity.
Qed.

(** The instant a written timestamp denotes, on every host. *)
Lemma parse_written (h : JSDate.host) (w : wall_clock) (offset : Z) :
  valid_wall_clock w = true -> -1439 <= offset <= 1439 ->
  JSDate.parse h (written w offset)
  = Some (JSDate.MakeDay (year w) (month w) (day w) * JSDate.msPerDay
          + hour w * JSDate.msPerHour + minute w * JSDate.msPerMinute
          + second w * 1000 + 0 - offset * JSDate.msPerMinute).
Proof.
  intros Hw Hoff. unfold JSDate.parse.
  rewrite (fields_written w offset Hw Hoff). reflexivity.
Qed.

Lemma clock_fields (D h mi s : Z) :
  0 <= h <= 23 -> 0 <= mi <= 59 -> 0 <= s <= 59 ->
  JSDate.Day (D * JSDate.msPerDay + h * JSDate.msPerHour + mi * JSDate.msPerMinute + s * 1000) = D
  /\ JSDate.HourFromTime
       (D * JSDate.msPerDay + h * JSDate.msPerHour + mi * JSDate.msPerMinute + s * 1000) = h
  /\ JSDate.MinFromTime
       (D * JSDate.msPerDay + h * JSDate.msPerHour + mi * JSDate.msPerMinute + s * 1000) = mi.
Proof.
  intros Hh Hmi Hs.
  unfold JSDate.Day, JSDate.HourFromTime, JSDate.MinFromTime,
    JSDate.msPerDay, JSDate.msPerHour, JSDate.msPerMinute.
  repeat split; Z.div_mod_to_equations; lia.
Qed.

Lemma clock_in_range (t : Z) :
  0 <= JSDate.HourFromTime t <= 23 /\ 0 <= JSDate.MinFromTime t <= 59.
Proof.
  unfold JSDate.HourFromTime, JSDate.MinFromTime.
  split; Z.div_mod_to_equations; lia.
Qed.

Lemma month_short_en_length (m : Z) :
  0 <= m <= 11 -> String.length (JSDate.month_short_en m) = 3%nat.
Proof.
  intros H.
  assert (Hm : m = 0 \/ m = 1 \/ m = 2 \/ m = 3 \/ m = 4 \/ m = 5 \/ m = 6 \/ m = 7
               \/ m = 8 \/ m = 9 \/ m = 10 \/ m = 11) by lia.
  repeat (destruct Hm as [->|Hm]; [reflexivity|]). subst m. reflexivity.
Qed.

Lemma length_append (s1 s2 : string) :
  String.length (s1 ++ s2) = (String.length s1 + String.length s2)%nat.
Proof.
  induction s1 as [|c s1 IH]; [reflexivity|]. cbn [append String.length]. rewrite IH. reflexivity.
Qed.
End Calendar.

(* ================================================================== *)
(** ** Display times *)

Section Display.
Import Page Samples Written.

Lemma local_fields_in_range (local : Z) :
  1 <= JSDate.MonthFromTime local + 1 <= 12
  /\ 1 <= JSDate.DateFromTime local <= 31
  /\ 0 <= JSDate.HourFromTime local <= 23
  /\ 0 <= JSDate.MinFromTime local <= 59.
Proof.
  pose proof (civil_in_range (JSDate.Day local)) as Hcivil.
  pose proof (clock_in_range local) as [Hh Hmi].
  unfold JSDate.MonthFromTime, JSDate.DateFromTime.
  destruct (JSDate.civil (JSDate.Day local)) as [[y m'] d'].
  repeat split; lia.
Qed.

(** Both display times, in terms of the local calendar fields. *)
Lemma format_date_fields (LocalTZA : Z -> Z) (t : Z) :
  let local := JSDate.LocalTime LocalTZA t in
  let m := JSDate.MonthFromTime local + 1 in
  let d := JSDate.DateFromTime local in
  let h := JSDate.HourFromTime local in
  let mi := JSDate.MinFromTime local in
  Index.format_date LocalTZA (Some t)
  = {| Index.time_en :=
         JSDate.month_short_en (m - 1) ++ "-" ++ two_digits d ++ " "
         ++ two_digits h ++ ":" ++ two_digits mi;
       Index.time_zh :=
         Str.of_int m ++ "月" ++ Str.of_int d ++ "日 "
         ++ two_digits h ++ ":" ++ two_digits mi |}.
Proof.
  intros local m d h mi.
  destruct (local_fields_in_range local) as (Hm & Hd & Hh & Hmi).
  fold m in Hm. fold d in Hd. fold h in Hh. fold mi in Hmi.
  unfold Index.format_date, formattedTimeEn, Index.formattedTimeZh,
    JSDate.toLocaleString_month_short, JSDate.getDate, JSDate.getMonth,
    JSDate.getHours, JSDate.getMinutes.
  cbn [option_map JSDate.toString]. fold local. fold d. fold h. fold mi. fold m.
  rewrite !padStart_two_digits by lia.
  replace (m - 1) with (JSDate.MonthFromTime local) by (unfold m; lia).
  reflexivity.
Qed.

(** X10: for every valid date the display times are built from the host's
    local calendar fields of the instant: the month is in 1..12, the day in
    1..31, the hour in 0..23 and the minute in 0..59; the English text is
    the three-letter month, a hyphen, the day in two digits, a space and
    [HH:mm], always twelve characters long; the Chinese text has month and
    day without padding before [月] and [日], then the same [HH:mm]. *)
Theorem display_times_show_calendar_fields :
  forall (LocalTZA : Z -> Z) (t : Z),
    let local := JSDate.LocalTime LocalTZA t in
    let m := JSDate.MonthFromTime local + 1 in
    let d := JSDate.DateFromTime local in
    let h := JSDate.HourFromTime local in
    let mi := JSDate.MinFromTime local in
    1 <= m <= 12 /\ 1 <= d <= 31 /\ 0 <= h <= 23 /\ 0 <= mi <= 59
    /\ Index.format_date LocalTZA (Some t)
       = {| Index.time_en :=
              JSDate.month_short_en (m - 1) ++ "-" ++ two_digits d ++ " "
              ++ two_digits h ++ ":" ++ two_digits mi;
            Index.time_zh :=
              Str.of_int m ++ "月" ++ Str.of_int d ++ "日 "
              ++ two_digits h ++ ":" ++ two_digits mi |}
    /\ String.length (Index.time_en (Index.format_date LocalTZA (Some t))) = 12%nat.
Proof.
  intros LocalTZA t local m d h mi.
  destruct (local_fields_in_range local) as (Hm & Hd & Hh & Hmi).
  pose proof (format_date_fields LocalTZA t) as Hfmt. cbv zeta in Hfmt.
  fold local in Hfmt. fold m in Hfmt, Hm. fold d in Hfmt, Hd.
  fold h in Hfmt, Hh. fold mi in Hfmt, Hmi.
  repeat (split; [assumption|]).
  rewrite Hfmt. cbn [Index.time_en].
  rewrite !length_append, month_short_en_length by lia. reflexivity.
Qed.

(** X11: a timestamp written as [YYYY-MM-DDTHH:mm:ss] with the designator of
    the offset the host's zone has at that instant is displayed with the
    very month, day, hour and minute it spells out. *)
Theorem written_fields_are_displayed :
  forall (h : JSDate.host) (w : wall_clock) (offset : Z),
    valid_wall_clock w = true ->
    -1439 <= offset <= 1439 ->
    (forall t, JSDate.parse h (written w offset) = Some t ->
               JSDate.LocalTZA_utc h t = offset * JSDate.msPerMinute) ->
    Index.format_time h (written w offset)
    = {| Index.time_en :=
           JSDate.month_short_en (month w - 1) ++ "-" ++ two_digits (day w) ++ " "
           ++ two_digits (hour w) ++ ":" ++ two_digits (minute w);
         Index.time_zh :=
           Str.of_int (month w) ++ "月" ++ Str.of_int (day w) ++ "日 "
           ++ two_digits (hour w) ++ ":" ++ two_digits (minute w) |}.
Proof.
  intros h w offset Hw Hoff Hzone.
  destruct (valid_wall_clock_inv w Hw) as (Hy & Hm & Hd & Hh & Hmi & Hs).
  pose proof (parse_written h w offset Hw Hoff) as Hparse.
  specialize (Hzone _ Hparse). unfold Index.format_time. rewrite Hparse.
  rewrite format_date_fields. cbv zeta.
  unfold JSDate.LocalTime. rewrite Hzone.
  match goal with
  | |- context [JSDate.MonthFromTime ?x] =>
      replace x with (JSDate.MakeDay (year w) (month w) (day w) * JSDate.msPerDay
                      + hour w * JSDate.msPerHour + minute w * JSDate.msPerMinute
                      + second w * 1000) by lia
  end.
  destruct (clock_fields (JSDate.MakeDay (year w) (month w) (day w))
              (hour w) (minute w) (second w) Hh Hmi Hs) as (Hday & Hhour & Hmin).
  unfold JSDate.MonthFromTime, JSDate.DateFromTime.
  rewrite Hday, Hhour, Hmin, (civil_MakeDay _ _ _ Hm Hd).
  replace (month w - 1 + 1) with (month w) by lia. reflexivity.
Qed.

Lemma written_fields_are_displayed_witness :
  let w := {| year := 2024; month := 3; day := 1; hour := 17; minute := 5; second := 0 |} in
  written w 480 = "2024-03-01T17:05:00+08:00"
  /\ Index.format_time utc_plus_8 "2024-03-01T17:05:00+08:00"
     = {| Index.time_en := "Mar-01 17:05"; Index.time_zh := "3月1日 17:05" |}.
Proof.
  intros w. split; [reflexivity|].
  change "2024-03-01T17:05:00+08:00" with (written w 480).
  rewrite (written_fields_are_displayed utc_plus_8 w 480).
  - reflexivity.
  - reflexivity.
  - lia.
  - intros t _. reflexivity.
Defined.
End Display.


(* ================================================================== *)
(** ** Decimal digits and the tooltip *)

Section Digits.
Import Written.

Lemma append_assoc (a b c : string) : (a ++ b) ++ c = a ++ (b ++ c).
Proof.
  induction a as [|x a IH]; [reflexivity|]. cbn [append]. rewrite IH. reflexivity.
Qed.

Lemma digits_fuel_acc (fuel : nat) :
  forall (n : Z) (acc : string),
    Str.digits_fuel fuel n acc = Str.digits_fuel fuel n EmptyString ++ acc.
Proof.
  induction fuel as [|fuel IH]; intros n acc; cbn [Str.digits_fuel]; [reflexivity|].
  destruct (n <? 10); [reflexivity|].
  rewrite (IH _ (String _ acc)), (IH _ (String _ EmptyString)).
  rewrite append_assoc. reflexivity.
Qed.

Lemma digits_fuel_enough (fuel : nat) :
  forall (n : Z) (acc : string) (fuel' : nat),
    0 <= n < 2 ^ Z.of_nat fuel -> 0 <= n < 2 ^ Z.of_nat fuel' ->
    (0 < fuel)%nat -> (0 < fuel')%nat ->
    Str.digits_fuel fuel n acc = Str.digits_fuel fuel' n acc.
Proof.
  induction fuel as [|fuel IH]; intros n acc fuel' Hn Hn' Hf Hf'; [lia|].
  destruct fuel' as [|fuel']; [lia|]. cbn [Str.digits_fuel].
  destruct (Z.ltb_spec n 10) as [Hsmall|Hbig]; [reflexivity|].
  rewrite !Nat2Z.inj_succ, !Z.pow_succ_r in * by lia.
  assert (Hq : 0 <= n / 10 < n / 2 + 1) by (Z.div_mod_to_equations; lia).
  apply IH.
  - Z.div_mod_to_equations; lia.
  - Z.div_mod_to_equations; lia.
  - destruct fuel; [cbn in Hn; lia|lia].
  - destruct fuel'; [cbn in Hn'; lia|lia].
Qed.

Lemma digits_fuel_big (fuel : nat) (n : Z) (acc : string) :
  10 <= n ->
  Str.digits_fuel (S fuel) n acc
  = Str.digits_fuel fuel (n / 10) (String (Str.digit_char (n mod 10)) acc).
Proof.
  intros H. cbn [Str.digits_fuel]. rewrite (proj2 (Z.ltb_ge n 10)) by lia. reflexivity.
Qed.

Lemma of_int_small (n : Z) :
  0 <= n < 10 -> Str.of_int n = String (Str.digit_char n) EmptyString.
Proof.
  intros H. unfold Str.of_int. rewrite (proj2 (Z.ltb_ge n 0)) by lia.
  cbn [Str.digits_fuel]. rewrite (proj2 (Z.ltb_lt n 10)) by lia.
  rewrite Z.mod_small by lia. reflexivity.
Qed.

(** The decimal digits of [n] are those of [n / 10] followed by the last
    one. *)
Lemma of_int_step (n : Z) :
  10 <= n ->
  Str.of_int n = Str.of_int (n / 10) ++ String (Str.digit_char (n mod 10)) EmptyString.
Proof.
  intros H. unfold Str.of_int.
  assert (Hq : 1 <= n / 10) by (Z.div_mod_to_equations; lia).
  rewrite (proj2 (Z.ltb_ge n 0)), (proj2 (Z.ltb_ge (n / 10) 0)) by lia.
  rewrite (digits_fuel_big _ n) by lia.
  rewrite digits_fuel_acc. f_equal.
  pose proof (Z.log2_spec n ltac:(lia)) as [_ Hlog].
  pose proof (Z.log2_spec (n / 10) ltac:(lia)) as [_ Hlogq].
  pose proof (Z.log2_nonneg n). pose proof (Z.log2_nonneg (n / 10)).
  assert (Hpos : 0 < Z.log2 n) by (apply Z.log2_pos; lia).
  apply digits_fuel_enough.
  - rewrite Z2Nat.id by lia.
    replace (Z.succ (Z.log2 n)) with (Z.log2 n + 1) in Hlog by lia.
    rewrite Z.pow_add_r in Hlog by lia. Z.div_mod_to_equations; lia.
  - rewrite Nat2Z.inj_succ, Z2Nat.id by lia. lia.
  - lia.
  - lia.
Qed.

Lemma of_int_hundreds (n : Z) :
  100 <= n -> Str.of_int n = Str.of_int (n / 100) ++ two_digits (n mod 100).
Proof.
  intros H.
  rewrite (of_int_step n) by lia.
  rewrite (of_int_step (n / 10)) by (Z.div_mod_to_equations; lia).
  rewrite append_assoc. unfold two_digits. cbn [append].
  replace (n / 10 / 10) with (n / 100) by (Z.div_mod_to_equations; lia).
  replace (n / 10 mod 10) with (n mod 100 / 10) by (Z.div_mod_to_equations; lia).
  replace (n mod 100 mod 10) with (n mod 10) by (Z.div_mod_to_equations; lia).
  reflexivity.
Qed.

Lemma substring_prefix (a b : string) :
  String.substring 0 (String.length a) (a ++ b) = a.
Proof.
  induction a as [|c a IH]; cbn [append String.length String.substring].
  - destruct b; reflexivity.
  - rewrite IH. reflexivity.
Qed.

Lemma substring_suffix (a b : string) :
  String.substring (String.length a) (String.length b) (a ++ b) = b.
Proof.
  induction a as [|c a IH]; cbn [append String.length String.substring].
  - induction b as [|c b IHb]; [reflexivity|].
    cbn [String.length String.substring]. rewrite IHb. reflexivity.
  - exact IH.
Qed.

Lemma padStart_long (s : string) (n : nat) (c : ascii) :
  (n <= String.length s)%nat -> Str.padStart s n c = s.
Proof.
  intros H. unfold Str.padStart.
  replace (n - String.length s)%nat with 0%nat by lia. reflexivity.
Qed.

(** [fixed_point] writes the whole part, a point and two digits. *)
Lemma fixed_point_spec (n : Z) :
  0 <= n ->
  Tooltip.fixed_point n = Str.of_int (n / 100) ++ "." ++ two_digits (n mod 100).
Proof.
  intros H. unfold Tooltip.fixed_point.
  assert (Hpad : Str.padStart (Str.of_int n) 3 "0" = Str.of_int (n / 100) ++ two_digits (n mod 100)).
  { destruct (Z.lt_ge_cases n 100) as [Hsmall|Hbig].
    - assert (Hall : all_from
                (fun k => String.eqb (Str.padStart (Str.of_int k) 3 "0")
                                     (Str.of_int (k / 100) ++ two_digits (k mod 100)))
                0 100 = true) by (vm_compute; reflexivity).
      apply String.eqb_eq. apply (all_from_spec _ _ _ Hall). lia.
    - rewrite padStart_long; [apply of_int_hundreds; exact Hbig|].
      rewrite (of_int_hundreds n Hbig), length_append.
      unfold two_digits. cbn [String.length].
      assert (1 <= String.length (Str.of_int (n / 100)))%nat; [|lia].
      assert (Hq : 1 <= n / 100) by (Z.div_mod_to_equations; lia).
      destruct (Z.lt_ge_cases (n / 100) 10) as [Hone|Hmore].
      + rewrite of_int_small by lia. cbn. lia.
      + rewrite of_int_step, length_append by lia. cbn [String.length]. lia. }
  rewrite Hpad. cbv zeta.
  set (a := Str.of_int (n / 100)). set (b := two_digits (n mod 100)).
  assert (Hlen : (String.length (a ++ b) - 2)%nat = String.length a).
  { rewrite length_append. unfold b, two_digits. cbn [String.length]. lia. }
  rewrite Hlen, substring_prefix.
  change 2%nat with (String.length b) at 1.
  rewrite substring_suffix. reflexivity.
Qed.
End Digits.

Section TooltipFacts.
Import Number Props Written Tooltip.

(** The arithmetic of the two cases of [nearest_hundredth], over the
    powers of two as unknowns. *)
Lemma hundredth_whole (m E U V T : Z) :
  0 < U -> 0 < E -> 0 < m -> V = E * U -> m * V < T * U ->
  m * E < T /\ 0 <= 100 * m * E
  /\ - U <= 200 * (m * V) - 2 * (100 * m * E) * U < U.
Proof. intros HU HE Hm -> Hlt. repeat split; nia. Qed.

Lemma hundredth_fraction (m D V U n : Z) :
  0 < D -> 0 < V -> 0 < m -> U = D * V ->
  2 * D * n <= 200 * m + D < 2 * D * n + 2 * D ->
  - U <= 200 * (m * V) - 2 * n * U < U.
Proof. intros HD HV Hm -> Hn. nia. Qed.

(** X12: for a positive rate below 10^21 the tooltip shows the rate to the
    nearest hundredth, the larger one of two equally near: the text is the
    whole part of [n / 100], a point, two digits and [" CNY"], where the
    integer [n] satisfies [-1/2 <= 100 * value - n < 1/2]; the second
    component, the name of the series, is empty. *)
Theorem tooltip_shows_the_nearest_hundredth :
  forall (ToString : number -> string) (value : number),
    positive_rate value = true ->
    ulps value < 10 ^ 21 * 2 ^ 1074 ->
    exists n : Z,
      0 <= n
      /\ formatter ToString value
         = (Str.of_int (n / 100) ++ "." ++ two_digits (n mod 100) ++ " CNY", EmptyString)
      /\ - 2 ^ 1074 <= 200 * ulps value - 2 * n * 2 ^ 1074 < 2 ^ 1074.
Proof.
  intros ToString value Hpos Hsmall.
  destruct (positive_rate_inv value Hpos) as (m & e & -> & Hb).
  pose proof (bounded_range _ _ Hb) as (He & _).
  cbn [ulps cond_Zopp] in *.
  pose proof (pow2_pos 1074 ltac:(lia)) as HU.
  pose proof (pow2_pos (e + 1074) ltac:(lia)) as HV.
  exists (nearest_hundredth m e).
  unfold formatter, toFixed2, nearest_hundredth.
  destruct (Z.leb_spec 0 e) as [Hint|Hfrac].
  - assert (Hval : 2 ^ (e + 1074) = 2 ^ e * 2 ^ 1074) by (apply Z.pow_add_r; lia).
    pose proof (pow2_pos e Hint) as HE.
    destruct (hundredth_whole (Zpos m) (2 ^ e) (2 ^ 1074) (2 ^ (e + 1074)) (10 ^ 21)
                HU HE (Pos2Z.is_pos m) Hval Hsmall) as (Hlt & Hn & Hnear).
    rewrite (proj2 (Z.leb_gt _ _) Hlt). cbn [andb append].
    split; [exact Hn|]. split; [|exact Hnear].
    rewrite fixed_point_spec by exact Hn. rewrite !append_assoc. reflexivity.
  - cbn [andb append]. set (D := 2 ^ (- e)).
    assert (HD : 0 < D) by (apply pow2_pos; lia).
    assert (H2D : 2 ^ (1 - e) = 2 * D).
    { unfold D. replace (1 - e) with (- e + 1) by lia. apply pow2_succ. lia. }
    assert (Hsplit : 2 ^ 1074 = D * 2 ^ (e + 1074)).
    { unfold D. rewrite <- Z.pow_add_r by lia. f_equal. lia. }
    rewrite H2D.
    pose proof (Z.mul_div_le (200 * Zpos m + D) (2 * D) ltac:(lia)) as Hlo.
    pose proof (Z.mul_succ_div_gt (200 * Zpos m + D) (2 * D) ltac:(lia)) as Hhi.
    pose proof (Z.div_pos (200 * Zpos m + D) (2 * D) ltac:(lia) ltac:(lia)) as Hn.
    set (n := (200 * Zpos m + D) / (2 * D)) in *.
    split; [exact Hn|]. split.
    + rewrite fixed_point_spec by exact Hn. rewrite !append_assoc. reflexivity.
    + apply (hundredth_fraction (Zpos m) D (2 ^ (e + 1074)) (2 ^ 1074) n HD HV
               (Pos2Z.is_pos m) Hsplit). lia.
Qed.

Lemma tooltip_shows_the_nearest_hundredth_witness :
  exists n : Z,
    formatter (fun _ => EmptyString) (parseFloat "4.625")
    = (Str.of_int (n / 100) ++ "." ++ two_digits (n mod 100) ++ " CNY", EmptyString)
    /\ formatter (fun _ => EmptyString) (parseFloat "4.625") = ("4.63 CNY", EmptyString).
Proof.
  destruct (tooltip_shows_the_nearest_hundredth (fun _ => EmptyString) (parseFloat "4.625"))
    as (n & _ & Hn & _).
  - vm_compute. reflexivity.
  - vm_compute. reflexivity.
  - exists n. split; [exact Hn|]. vm_compute. reflexivity.
Defined.
End TooltipFacts.
